(** * Incremental pagination and checkpointing in [historical_data_fetcher.py]

    A shallow embedding of [BinanceHistoricalFetcher]: the two batch calls
    ([fetch_klines_batch], [fetch_funding_rates_batch]) and the two walkers
    ([fetch_historical_klines], [fetch_historical_funding_rates]), together
    with the pandas operations they rely on ([pd.concat], [drop_duplicates],
    [sort_values], [Series.max]).

    Conventions.
    - An instant is an integer number of epoch milliseconds;
      [timedelta(milliseconds=1)] is [+ 1], and the conversion of an instant
      to the [startTime]/[endTime] request parameters is exact.  The cursor
      is an [option Z]: [None] stands for pandas' [NaT], the maximum of an
      empty column; [NaT + 1ms] is [NaT] and [NaT < end_date] is [False].
    - Decimal columns are rationals; the walkers never compute on them.
    - A DataFrame is the list of its rows, in index order.
    - The output file is [option (list R)]: [None] when [Path(output_file).exists()]
      is false.  [to_csv] followed by [read_csv] is taken to give the rows back.
    - Effects (HTTP requests, log lines, file writes, sleeps) are recorded in a
      trace, most recent event first.
    - The remote provider is a function from the number of requests already
      made and the request's [startTime]/[endTime] to what [requests.get]
      and [response.json()] produce.  The items of a JSON array have the
      provider's documented shape; a body that is not JSON raises requests'
      [JSONDecodeError], which is a [RequestException].
    - [symbol], [interval] and [output_file] name the dataset and do not
      enter the control flow: a run has one provider and one file.  A log
      event records the kind of the message and its numbers, not its
      wording.
    - Python's [while] is run with fuel; a run that exhausts its fuel is
      reported as still paging, never as a result. *)

From Stdlib Require Import ZArith List Bool Lia PeanoNat QArith.
From Stdlib Require Import Sorting.Sorted Sorting.Permutation.
From Stdlib Require String Ascii.
Import ListNotations.

Local Open Scope Z_scope.

Set Implicit Arguments.

(** ** Records *)

(** One row of the klines DataFrame after [df.drop('ignore', axis=1)]. *)
Record BarRecord : Type := mkBar {
  open_time : Z;
  open_ : Q;
  high : Q;
  low : Q;
  close : Q;
  volume : Q;
  close_time : Z;
  quote_volume : Q;
  trades : Z;
  taker_buy_base : Q;
  taker_buy_quote : Q
}.

(** One row of [df[["fundingTime", "fundingRate"]]]. *)
Record FundingRecord : Type := mkFunding {
  fundingTime : Z;
  fundingRate : Q
}.

(** One element of the JSON array of [/klines]: the twelve columns of [cols]. *)
Record RawKline : Type := mkRawKline {
  k_open_time : Z;
  k_open : Q;
  k_high : Q;
  k_low : Q;
  k_close : Q;
  k_volume : Q;
  k_close_time : Z;
  k_quote_volume : Q;
  k_trades : Z;
  k_taker_buy_base : Q;
  k_taker_buy_quote : Q;
  k_ignore : Q
}.

(** One element of the JSON array of [/fundingRate]. *)
Record RawFunding : Type := mkRawFunding {
  f_fundingTime : Z;
  f_fundingRate : Q;
  f_markPrice : Q
}.

Definition kline_of_raw (r : RawKline) : BarRecord :=
  mkBar (k_open_time r) (k_open r) (k_high r) (k_low r) (k_close r)
        (k_volume r) (k_close_time r) (k_quote_volume r) (k_trades r)
        (k_taker_buy_base r) (k_taker_buy_quote r).

Definition funding_of_raw (r : RawFunding) : FundingRecord :=
  mkFunding (f_fundingTime r) (f_fundingRate r).

(** ** pandas *)

Section Pandas.
Variable R : Type.
Variable key : R -> Z.

(** [df[col].max()]; [None] is [NaT]. *)
Fixpoint column_max (df : list R) : option Z :=
  match df with
  | [] => None
  | r :: rest =>
      match column_max rest with
      | None => Some (key r)
      | Some m => Some (Z.max (key r) m)
      end
  end.

(** [df.drop_duplicates(subset=[col])], with pandas' default [keep='first']:
    a row stays unless an earlier row has the same key. *)
Fixpoint drop_duplicates (df : list R) : list R :=
  match df with
  | [] => []
  | r :: rest =>
      r :: filter (fun x => negb (key x =? key r)) (drop_duplicates rest)
  end.

Fixpoint insert_row (r : R) (sorted : list R) : list R :=
  match sorted with
  | [] => [r]
  | x :: rest =>
      if key r <=? key x then r :: x :: rest else x :: insert_row r rest
  end.

(** [df.sort_values(col)], ascending.  The walkers only sort frames whose
    keys are already unique, where every sorting algorithm agrees. *)
Fixpoint sort_values (df : list R) : list R :=
  match df with
  | [] => []
  | r :: rest => insert_row r (sort_values rest)
  end.

(** The three lines
    [pd.concat(all_data, ignore_index=True)],
    [.drop_duplicates(subset=[col]).sort_values(col)]. *)
Definition combine (all_data : list (list R)) : list R :=
  sort_values (drop_duplicates (concat all_data)).
End Pandas.

(** Row selectors and orders on the primary time field. *)
Definition has_key {R : Type} (key : R -> Z) (k : Z) (r : R) : bool :=
  key r =? k.

Definition le_key {R : Type} (key : R -> Z) (a b : R) : Prop :=
  key a <= key b.

Definition lt_key {R : Type} (key : R -> Z) (a b : R) : Prop :=
  key a < key b.

(** [x + timedelta(milliseconds=1)]. *)
Definition add_ms (t : option Z) : option Z :=
  option_map (fun m => m + 1) t.

(** [current_start < end_date]. *)
Definition lt_instant (t : option Z) (end_date : Z) : bool :=
  match t with
  | Some c => c <? end_date
  | None => false
  end.

(** Truth value of a Python list. *)
Definition truthy {A : Type} (l : list A) : bool :=
  match l with
  | [] => false
  | _ :: _ => true
  end.

(** ** Effects *)

Inductive Event (R : Type) : Type :=
| HttpGet (startTime endTime limit : Z)
| LogError
| LogFound (rows : nat) (latest : option Z)
| LogFresh (start_date : Z)
| LogFetching (current_start : Z)
| LogNoMoreData
| LogFetched (rows total : nat) (latest : option Z)
| ToCsv (rows : list R)
| LogCheckpoint (rows : nat)
| Sleep
| LogComplete (rows : nat)
| LogNoData.

Arguments HttpGet {R}.
Arguments LogError {R}.
Arguments LogFound {R}.
Arguments LogFresh {R}.
Arguments LogFetching {R}.
Arguments LogNoMoreData {R}.
Arguments LogFetched {R}.
Arguments LogCheckpoint {R}.
Arguments Sleep {R}.
Arguments LogComplete {R}.
Arguments LogNoData {R}.

Definition is_http_get {R : Type} (e : Event R) : bool :=
  match e with
  | HttpGet _ _ _ => true
  | _ => false
  end.

(** Number of requests sent so far. *)
Definition requests_made {R : Type} (tr : list (Event R)) : nat :=
  length (filter is_http_get tr).

(** What the [try] block of a batch call meets. *)
Inductive HttpOutcome (Raw : Type) : Type :=
| RequestFailed                (* requests.get raises: timeout, connection error *)
| BadStatus (status : Z)       (* raise_for_status raises HTTPError *)
| InvalidJson                  (* response.json() raises JSONDecodeError *)
| JsonArray (raw : list Raw).  (* a 2xx reply carrying a JSON array *)

Arguments RequestFailed {Raw}.
Arguments BadStatus {Raw}.
Arguments InvalidJson {Raw}.

Definition Net (Raw : Type) : Type := nat -> Z -> Z -> HttpOutcome Raw.

(** ** Page Source *)

(** [fetch_klines_batch], lines 28-68. *)
Definition fetch_klines_batch (net : Net RawKline) (tr : list (Event BarRecord))
    (start_time end_time limit : Z)
  : option (list BarRecord) * list (Event BarRecord) :=
  let tr1 := HttpGet start_time end_time limit :: tr in
  match net (requests_made tr) start_time end_time with
  | JsonArray raw =>
      if negb (truthy raw) then (None, tr1)
      else (Some (map kline_of_raw raw), tr1)
  | _ => (None, LogError :: tr1)
  end.

(** [fetch_funding_rates_batch], lines 70-99. *)
Definition fetch_funding_rates_batch (net : Net RawFunding)
    (tr : list (Event FundingRecord)) (start_time end_time limit : Z)
  : option (list FundingRecord) * list (Event FundingRecord) :=
  let tr1 := HttpGet start_time end_time limit :: tr in
  match net (requests_made tr) start_time end_time with
  | JsonArray raw =>
      if negb (truthy raw) then (None, tr1)
      else (Some (map funding_of_raw raw), tr1)
  | _ => (None, LogError :: tr1)
  end.

(** ** Walker state and Python's [while] *)

(** The locals of a walker ([all_data], [current_start], [total_fetched])
    with the output file and the trace of effects. *)
Record Walker (R : Type) : Type := mkWalker {
  all_data : list (list R);
  current_start : option Z;
  total_fetched : nat;
  disk : option (list R);
  trace : list (Event R)
}.

Definition log {R : Type} (e : Event R) (w : Walker R) : Walker R :=
  mkWalker (all_data w) (current_start w) (total_fetched w) (disk w)
           (e :: trace w).

Definition with_trace {R : Type} (w : Walker R) (tr : list (Event R))
  : Walker R :=
  mkWalker (all_data w) (current_start w) (total_fetched w) (disk w) tr.

(** [df.to_csv(output_file, index=False)]. *)
Definition to_csv {R : Type} (df : list R) (w : Walker R) : Walker R :=
  mkWalker (all_data w) (current_start w) (total_fetched w) (Some df)
           (ToCsv df :: trace w).

Inductive Flow (S : Type) : Type :=
| Continue (s : S)
| Break (s : S).

Definition flow_state {S : Type} (f : Flow S) : S :=
  match f with
  | Continue s => s
  | Break s => s
  end.

Inductive Outcome (S : Type) : Type :=
| Finished (s : S)
| OutOfFuel (s : S).

Definition state_of {S : Type} (o : Outcome S) : S :=
  match o with
  | Finished s => s
  | OutOfFuel s => s
  end.

Section While.
Variable S : Type.
Variable cond : S -> bool.
Variable body : S -> Flow S.

(** [while cond: body], at most [fuel] iterations. *)
Fixpoint while (fuel : nat) (s : S) : Outcome S :=
  if cond s then
    match fuel with
    | O => OutOfFuel s
    | Datatypes.S fuel' =>
        match body s with
        | Continue s' => while fuel' s'
        | Break s' => Finished s'
        end
    end
  else Finished s.
End While.

(** What a call of a walker gives: the returned value ([None] is Python's
    [None]) with the final state, or a loop that is still running. *)
Inductive Run (R : Type) : Type :=
| Returned (ret : option (list R)) (w : Walker R)
| StillPaging (w : Walker R).

Definition run_state {R : Type} (r : Run R) : Walker R :=
  match r with
  | Returned _ w => w
  | StillPaging w => w
  end.

(** Pages fetched since the file was last written: the [LogFetched] events
    more recent than the last [ToCsv]. *)
Fixpoint pages_since_checkpoint {R : Type} (tr : list (Event R)) : nat :=
  match tr with
  | [] => 0
  | ToCsv _ :: _ => 0
  | LogFetched _ _ _ :: rest => S (pages_since_checkpoint rest)
  | _ :: rest => pages_since_checkpoint rest
  end.

(** The iteration that has just ended wrote a checkpoint (lines 168-172
    followed by the sleep of line 174). *)
Definition just_checkpointed {R : Type} (tr : list (Event R)) : bool :=
  match tr with
  | Sleep :: LogCheckpoint _ :: ToCsv _ :: _ => true
  | _ => false
  end.

(** ** [fetch_historical_klines], lines 101-189 *)

Module Klines.

(** Lines 130-142. *)
Definition resume (start_date : Z) (file : option (list BarRecord))
  : Walker BarRecord :=
  match file with
  | Some existing_df =>
      mkWalker [existing_df]
               (add_ms (column_max open_time existing_df))
               0%nat
               (Some existing_df)
               [LogFound (length existing_df)
                         (column_max open_time existing_df)]
  | None =>
      mkWalker [] (Some start_date) 0%nat None [LogFresh start_date]
  end.

(** Lines 145-178, one iteration.  The loop condition has already excluded
    [NaT]. *)
Definition body (net : Net RawKline) (end_date : Z) (w : Walker BarRecord)
  : Flow (Walker BarRecord) :=
  match current_start w with
  | None => Break w
  | Some cur =>
      match fetch_klines_batch net (LogFetching cur :: trace w)
                               cur end_date 1000 with
      | (None, tr) => Break (with_trace w (LogNoMoreData :: tr))
      | (Some batch_df, tr) =>
          if (length batch_df =? 0)%nat
          then Break (with_trace w (LogNoMoreData :: tr))
          else
            let w1 :=
              mkWalker (all_data w ++ [batch_df])
                       (add_ms (column_max open_time batch_df))
                       (total_fetched w + length batch_df)%nat
                       (disk w)
                       (LogFetched (length batch_df)
                                   (total_fetched w + length batch_df)%nat
                                   (column_max open_time batch_df) :: tr) in
            let w2 :=
              if (length (all_data w1) mod 10 =? 0)%nat
              then
                let combined_df :=
                  sort_values open_time
                    (drop_duplicates open_time (concat (all_data w1))) in
                log (LogCheckpoint (length combined_df))
                    (to_csv combined_df w1)
              else w1 in
            let w3 := log Sleep w2 in
            if (length batch_df <? 1000)%nat then Break w3 else Continue w3
      end
  end.

(** Lines 181-189. *)
Definition final_save (w : Walker BarRecord) : Run BarRecord :=
  if truthy (all_data w) then
    let combined_df :=
      sort_values open_time
        (drop_duplicates open_time (concat (all_data w))) in
    Returned (Some combined_df)
             (log (LogComplete (length combined_df)) (to_csv combined_df w))
  else Returned None (log LogNoData w).

(** Lines 144-178. *)
Definition loop (net : Net RawKline) (end_date : Z) (fuel : nat)
    (w : Walker BarRecord) : Outcome (Walker BarRecord) :=
  while (fun w => lt_instant (current_start w) end_date)
        (body net end_date) fuel w.

Definition fetch_historical_klines (net : Net RawKline)
    (start_date end_date : Z) (file : option (list BarRecord))
    (fuel : nat) : Run BarRecord :=
  match loop net end_date fuel (resume start_date file) with
  | Finished w => final_save w
  | OutOfFuel w => StillPaging w
  end.

End Klines.

(** ** [fetch_historical_funding_rates], lines 191-268 *)

Module Funding.

(** Lines 214-224. *)
Definition resume (start_date : Z) (file : option (list FundingRecord))
  : Walker FundingRecord :=
  match file with
  | Some existing_df =>
      mkWalker [existing_df]
               (add_ms (column_max fundingTime existing_df))
               0%nat
               (Some existing_df)
               [LogFound (length existing_df)
                         (column_max fundingTime existing_df)]
  | None =>
      mkWalker [] (Some start_date) 0%nat None [LogFresh start_date]
  end.

(** Lines 227-257, one iteration. *)
Definition body (net : Net RawFunding) (end_date : Z)
    (w : Walker FundingRecord) : Flow (Walker FundingRecord) :=
  match current_start w with
  | None => Break w
  | Some cur =>
      match fetch_funding_rates_batch net (LogFetching cur :: trace w)
                                      cur end_date 1000 with
      | (None, tr) => Break (with_trace w (LogNoMoreData :: tr))
      | (Some batch_df, tr) =>
          if (length batch_df =? 0)%nat
          then Break (with_trace w (LogNoMoreData :: tr))
          else
            let w1 :=
              mkWalker (all_data w ++ [batch_df])
                       (add_ms (column_max fundingTime batch_df))
                       (total_fetched w + length batch_df)%nat
                       (disk w)
                       (LogFetched (length batch_df)
                                   (total_fetched w + length batch_df)%nat
                                   (column_max fundingTime batch_df) :: tr) in
            let w2 :=
              if (length (all_data w1) mod 10 =? 0)%nat
              then
                let combined_df :=
                  sort_values fundingTime
                    (drop_duplicates fundingTime (concat (all_data w1))) in
                log (LogCheckpoint (length combined_df))
                    (to_csv combined_df w1)
              else w1 in
            let w3 := log Sleep w2 in
            if (length batch_df <? 1000)%nat then Break w3 else Continue w3
      end
  end.

(** Lines 260-268. *)
Definition final_save (w : Walker FundingRecord) : Run FundingRecord :=
  if truthy (all_data w) then
    let combined_df :=
      sort_values fundingTime
        (drop_duplicates fundingTime (concat (all_data w))) in
    Returned (Some combined_df)
             (log (LogComplete (length combined_df)) (to_csv combined_df w))
  else Returned None (log LogNoData w).

(** Lines 226-257. *)
Definition loop (net : Net RawFunding) (end_date : Z) (fuel : nat)
    (w : Walker FundingRecord) : Outcome (Walker FundingRecord) :=
  while (fun w => lt_instant (current_start w) end_date)
        (body net end_date) fuel w.

Definition fetch_historical_funding_rates (net : Net RawFunding)
    (start_date end_date : Z) (file : option (list FundingRecord))
    (fuel : nat) : Run FundingRecord :=
  match loop net end_date fuel (resume start_date file) with
  | Finished w => final_save w
  | OutOfFuel w => StillPaging w
  end.

End Funding.

(** ** The Incremental Walker of the design, over any record kind

    One walker parameterised by the primary time field [key] and by the
    Page Source [fetch]; the two functions above are compared with it in
    [klines_is_walker] and [funding_is_walker]. *)

Section IncrementalWalker.
Variable R : Type.
Variable key : R -> Z.
Variable fetch :
  list (Event R) -> Z -> Z -> Z -> option (list R) * list (Event R).

(** RESUMING. *)
Definition walker_resume (start_date : Z) (file : option (list R))
  : Walker R :=
  match file with
  | Some existing =>
      mkWalker [existing] (add_ms (column_max key existing)) 0%nat
               (Some existing)
               [LogFound (length existing) (column_max key existing)]
  | None =>
      mkWalker [] (Some start_date) 0%nat None [LogFresh start_date]
  end.

(** Checkpoint Store [persist] at the threshold. *)
Definition checkpoint (w : Walker R) : Walker R :=
  if (length (all_data w) mod 10 =? 0)%nat
  then log (LogCheckpoint (length (combine key (all_data w))))
           (to_csv (combine key (all_data w)) w)
  else w.

(** Steps 3 and 4 of PAGING: append the page, advance the cursor. *)
Definition append_page (page : list R) (tr : list (Event R)) (w : Walker R)
  : Walker R :=
  mkWalker (all_data w ++ [page])
           (add_ms (column_max key page))
           (total_fetched w + length page)%nat
           (disk w)
           (LogFetched (length page) (total_fetched w + length page)%nat
                       (column_max key page) :: tr).

(** One PAGING iteration. *)
Definition walker_body (end_date : Z) (w : Walker R) : Flow (Walker R) :=
  match current_start w with
  | None => Break w
  | Some cur =>
      match fetch (LogFetching cur :: trace w) cur end_date 1000 with
      | (None, tr) => Break (with_trace w (LogNoMoreData :: tr))
      | (Some page, tr) =>
          if (length page =? 0)%nat
          then Break (with_trace w (LogNoMoreData :: tr))
          else
            let w3 := log Sleep (checkpoint (append_page page tr w)) in
            if (length page <? 1000)%nat then Break w3 else Continue w3
      end
  end.

(** DONE. *)
Definition walker_done (w : Walker R) : Run R :=
  if truthy (all_data w) then
    Returned (Some (combine key (all_data w)))
             (log (LogComplete (length (combine key (all_data w))))
                  (to_csv (combine key (all_data w)) w))
  else Returned None (log LogNoData w).

Definition walker_cond (end_date : Z) (w : Walker R) : bool :=
  lt_instant (current_start w) end_date.

Definition walker_loop (end_date : Z) (fuel : nat) (w : Walker R)
  : Outcome (Walker R) :=
  while (walker_cond end_date) (walker_body end_date) fuel w.

Definition incremental_walker (start_date end_date : Z)
    (file : option (list R)) (fuel : nat) : Run R :=
  match walker_loop end_date fuel (walker_resume start_date file) with
  | Finished w => walker_done w
  | OutOfFuel w => StillPaging w
  end.
End IncrementalWalker.

(** The state after one page has been processed: appended, cursor advanced,
    checkpointed at the threshold, rate-limit delay applied. *)
Definition page_step {R : Type} (key : R -> Z) (end_date : Z)
    (w : Walker R) (cur : Z) (page : list R) : Walker R :=
  log Sleep
      (checkpoint key
         (append_page key page
            (HttpGet cur end_date 1000 :: LogFetching cur :: trace w) w)).

(** The state after a request that brought no page. *)
Definition stop_step {R : Type} (end_date : Z) (w : Walker R) (cur : Z)
    (failed : bool) : Walker R :=
  with_trace w
    (LogNoMoreData ::
     (if failed then [LogError] else []) ++
     HttpGet cur end_date 1000 :: LogFetching cur :: trace w).

Definition is_failure {Raw : Type} (o : HttpOutcome Raw) : bool :=
  match o with
  | JsonArray _ => false
  | _ => true
  end.

(** The Page Source of the design: one bounded remote call, converted by
    [conv]. *)
Definition page_source {Raw R : Type} (conv : Raw -> R) (net : Net Raw)
    (tr : list (Event R)) (start_time end_time limit : Z)
  : option (list R) * list (Event R) :=
  let tr1 := HttpGet start_time end_time limit :: tr in
  match net (requests_made tr) start_time end_time with
  | JsonArray raw =>
      match raw with
      | [] => (None, tr1)
      | _ :: _ => (Some (map conv raw), tr1)
      end
  | _ => (None, LogError :: tr1)
  end.


(** ** Invariants of a run *)

(** The buffer a run starts from: the existing dataset as one frame. *)
Definition initial_frames {R : Type} (file : option (list R))
  : list (list R) :=
  match file with
  | Some existing => [existing]
  | None => []
  end.

(** The buffer only grows at its end, and every frame written to the file
    is [combine] of the initial frames followed by fetched pages. *)
Definition snapshots_of {R : Type} (key : R -> Z) (init : list (list R))
    (w : Walker R) : Prop :=
  (exists pages, all_data w = init ++ pages)
  /\ forall rows, In (ToCsv rows) (trace w) ->
                  exists pages, rows = combine key (init ++ pages).

(** Strictly increasing primary times, none repeated. *)
Definition increasing {R : Type} (key : R -> Z) (rows : list R) : Prop :=
  Sorted Z.lt (map key rows) /\ NoDup (map key rows).

(** [m] is the maximum of the column [key] of [df]. *)
Definition is_max {R : Type} (key : R -> Z) (df : list R) (m : Z) : Prop :=
  (exists r, In r df /\ key r = m) /\ forall r, In r df -> key r <= m.

(** ** Providers and datasets used in the examples *)

Definition raw_kline_at (t : Z) (v : Q) : RawKline :=
  mkRawKline t 0%Q 0%Q 0%Q 0%Q v (t + 299999) 0%Q 0 0%Q 0%Q 0%Q.

Definition bar_at (t : Z) (v : Q) : BarRecord :=
  kline_of_raw (raw_kline_at t v).

Definition raw_funding_at (t : Z) (rate : Q) : RawFunding :=
  mkRawFunding t rate 0%Q.

(** [n] consecutive instants from [t]. *)
Fixpoint instants_from (t : Z) (n : nat) : list Z :=
  match n with
  | O => []
  | S n' => t :: instants_from (t + 1) n'
  end.

(** A provider that times out. *)
Definition timeout_net {Raw : Type} : Net Raw :=
  fun _ _ _ => RequestFailed.

(** A provider that has nothing. *)
Definition empty_net {Raw : Type} : Net Raw :=
  fun _ _ _ => JsonArray [].

(** A provider that answers every request with the same two bars, at 0 and
    at 5 (the second with volume 2), whatever [startTime] is. *)
Definition two_bars_net : Net RawKline :=
  fun _ _ _ => JsonArray [raw_kline_at 0 2%Q; raw_kline_at 5 2%Q].

Definition two_rates_net : Net RawFunding :=
  fun _ _ _ => JsonArray [raw_funding_at 0 2%Q; raw_funding_at 5 2%Q].

(** A provider with a bar at every millisecond: each page holds the 1000
    bars from [startTime] on. *)
Definition full_page_net : Net RawKline :=
  fun _ c _ =>
    JsonArray (map (fun t => raw_kline_at t 0%Q) (instants_from c 1000)).

(** Pages appended to the buffer during the run. *)
Fixpoint pages_fetched {R : Type} (tr : list (Event R)) : nat :=
  match tr with
  | [] => 0
  | LogFetched _ _ _ :: rest => S (pages_fetched rest)
  | _ :: rest => pages_fetched rest
  end.

(** The pages of a provider reach the request's [startTime]: every page
    has a row at or after it. *)
Definition honours_start {Raw R : Type} (conv : Raw -> R) (key : R -> Z)
    (net : Net Raw) : Prop :=
  forall i c e x raw,
    net i c e = JsonArray (x :: raw) ->
    exists r, In r (x :: raw) /\ c <= key (conv r).

(** Iterations that remain at most, for a provider that honours
    [startTime]. *)
Definition iterations_bound (end_date : Z) (cursor : option Z) : nat :=
  match cursor with
  | Some c => Z.to_nat (end_date - c)
  | None => 0
  end.

(** A provider that ignores [startTime] and always sends the same full page,
    the bars at 0 .. 999. *)
Definition stale_page_net : Net RawKline :=
  fun _ _ _ =>
    JsonArray (map (fun t => raw_kline_at t 0%Q) (instants_from 0 1000)).

(** A provider with a bar at every millisecond that sends one bar per
    request, the one at the request's [startTime]. *)
Definition echo_net : Net RawKline :=
  fun _ c _ => JsonArray [raw_kline_at c 1%Q].

(** ** A provider serving a fixed store *)

Definition in_range (start_time end_time t : Z) : bool :=
  (start_time <=? t) && (t <=? end_time).

(** The first 1000 rows of the store between [startTime] and [endTime]. *)
Definition serve {Raw : Type} (time : Raw -> Z) (store : list Raw)
    (start_time end_time : Z) : list Raw :=
  firstn 1000 (filter (fun r => in_range start_time end_time (time r)) store).

Definition store_net {Raw : Type} (time : Raw -> Z) (store : list Raw)
  : Net Raw :=
  fun _ start_time end_time => JsonArray (serve time store start_time end_time).

(** The cursor is one millisecond past everything in the buffer. *)
Definition cursor_past_buffer {R : Type} (key : R -> Z) (w : Walker R)
  : Prop :=
  all_data w <> [] ->
  current_start w = add_ms (column_max key (concat (all_data w))).

(** Nothing is left to fetch at the cursor. *)
Definition exhausted {Raw R : Type} (time : Raw -> Z) (store : list Raw)
    (end_date : Z) (w : Walker R) : Prop :=
  forall c, current_start w = Some c -> c < end_date ->
            serve time store c end_date = [].

(** ** Walker steps with the record schema erased

    What remains of a run when every record is replaced by its primary
    time: the requests, the log lines, the sleeps, and the times of every
    frame written or returned. *)

Definition erase_event {R : Type} (key : R -> Z) (e : Event R) : Event Z :=
  match e with
  | HttpGet s e l => HttpGet s e l
  | LogError => LogError
  | LogFound n latest => LogFound n latest
  | LogFresh s => LogFresh s
  | LogFetching c => LogFetching c
  | LogNoMoreData => LogNoMoreData
  | LogFetched n total latest => LogFetched n total latest
  | ToCsv rows => ToCsv (map key rows)
  | LogCheckpoint n => LogCheckpoint n
  | Sleep => Sleep
  | LogComplete n => LogComplete n
  | LogNoData => LogNoData
  end.

Definition erase_walker {R : Type} (key : R -> Z) (w : Walker R)
  : Walker Z :=
  mkWalker (map (map key) (all_data w))
           (current_start w)
           (total_fetched w)
           (option_map (map key) (disk w))
           (map (erase_event key) (trace w)).

Definition erase_flow {R : Type} (key : R -> Z) (f : Flow (Walker R))
  : Flow (Walker Z) :=
  match f with
  | Continue w => Continue (erase_walker key w)
  | Break w => Break (erase_walker key w)
  end.

Definition erase_outcome {R : Type} (key : R -> Z) (o : Outcome (Walker R))
  : Outcome (Walker Z) :=
  match o with
  | Finished w => Finished (erase_walker key w)
  | OutOfFuel w => OutOfFuel (erase_walker key w)
  end.

Definition erase_run {R : Type} (key : R -> Z) (r : Run R) : Run Z :=
  match r with
  | Returned ret w => Returned (option_map (map key) ret) (erase_walker key w)
  | StillPaging w => StillPaging (erase_walker key w)
  end.

Definition erase_reply {Raw : Type} (time : Raw -> Z) (o : HttpOutcome Raw)
  : HttpOutcome Z :=
  match o with
  | RequestFailed => RequestFailed
  | BadStatus status => BadStatus status
  | InvalidJson => InvalidJson
  | JsonArray raw => JsonArray (map time raw)
  end.

Definition erase_net {Raw : Type} (time : Raw -> Z) (net : Net Raw) : Net Z :=
  fun i c e => erase_reply time (net i c e).

(** The walker over bare instants. *)
Definition instant_walker (net : Net Z) (start_date end_date : Z)
    (file : option (list Z)) (fuel : nat) : Run Z :=
  incremental_walker (fun t : Z => t) (page_source (fun t : Z => t) net)
                     start_date end_date file fuel.

(** ** Observations on the trace of a run *)

Definition is_sleep {R : Type} (e : Event R) : bool :=
  match e with
  | Sleep => true
  | _ => false
  end.

Definition is_no_more_data {R : Type} (e : Event R) : bool :=
  match e with
  | LogNoMoreData => true
  | _ => false
  end.

Definition is_log_error {R : Type} (e : Event R) : bool :=
  match e with
  | LogError => true
  | _ => false
  end.

Definition count_events {R : Type} (p : Event R -> bool)
    (tr : list (Event R)) : nat :=
  length (filter p tr).

(** Reading the trace from the most recent event back: no request is met
    while a more recent request is [pending], that is, not yet separated
    from this point by a sleep. *)
Fixpoint paced_after {R : Type} (pending : bool) (tr : list (Event R))
  : bool :=
  match tr with
  | [] => true
  | HttpGet _ _ _ :: rest =>
      if pending then false else paced_after true rest
  | Sleep :: rest => paced_after false rest
  | _ :: rest => paced_after pending rest
  end.

(** Between any two requests of the trace there is a sleep. *)
Definition paced {R : Type} (tr : list (Event R)) : bool :=
  paced_after false tr.

(** Every request of the trace asks for at most 1000 rows of a non-empty
    range that ends at [end_date]. *)
Definition requests_in_range {R : Type} (end_date : Z)
    (tr : list (Event R)) : Prop :=
  forall s e l, In (HttpGet s e l) tr ->
                l = 1000 /\ e = end_date /\ s < end_date.

(** The frames written to the file, most recent first. *)
Fixpoint snapshots {R : Type} (tr : list (Event R)) : list (list R) :=
  match tr with
  | [] => []
  | ToCsv rows :: rest => rows :: snapshots rest
  | _ :: rest => snapshots rest
  end.

(** ** Properties of a walker, stated for either record kind

    [walker] stands for [fetch_historical_klines] or
    [fetch_historical_funding_rates], [conv] for the conversion of one item
    of the provider's reply into a row, [key] for the primary time field. *)

(** What is returned and what the file holds afterwards. *)
Definition return_matches_file {Raw R : Type}
    (walker : Net Raw -> Z -> Z -> option (list R) -> nat -> Run R)
  : Prop :=
  forall net start_date end_date file fuel ret w,
    walker net start_date end_date file fuel = Returned ret w ->
    (ret = None <-> file = None /\ pages_fetched (trace w) = 0%nat)
    /\ match ret with
       | Some rows =>
           disk w = Some rows
           /\ exists tr,
               trace w = LogComplete (length rows) :: ToCsv rows :: tr
       | None => disk w = None /\ snapshots (trace w) = []
       end.

(** The returned frame is made of the rows of the file and of the pages
    the provider sent, one row for each of their primary times. *)
Definition returns_what_was_fetched {Raw R : Type} (conv : Raw -> R)
    (key : R -> Z)
    (walker : Net Raw -> Z -> Z -> option (list R) -> nat -> Run R)
  : Prop :=
  forall net start_date end_date file fuel rows w,
    walker net start_date end_date file fuel = Returned (Some rows) w ->
    exists pages,
      all_data w = initial_frames file ++ pages
      /\ length pages = pages_fetched (trace w)
      /\ (forall page, In page pages ->
            exists i c raw,
              net i c end_date = JsonArray raw /\ page = map conv raw)
      /\ (forall k, In k (map key rows)
                    <-> In k (map key (concat (initial_frames file ++ pages))))
      /\ (forall r, In r rows -> In r (concat (initial_frames file ++ pages))).

(** Every frame written is [combine] of a prefix of the buffer, and each
    contains the ones written before it. *)
Definition growing {R : Type} (key : R -> Z) (w : Walker R) : Prop :=
  Forall (fun s => exists before after,
              all_data w = before ++ after /\ s = combine key before)
         (snapshots (trace w))
  /\ ForallOrdPairs (fun newer older => incl older newer)
       (snapshots (trace w)).

(** What the walk has gathered when the cursor, resumed at [c0], stands at
    some instant: every row of the store from [c0] up to the cursor (and
    not after [end_date]) is in the buffer, and the buffer holds only rows
    of the file and rows of the store between [c0] and [end_date]. *)
Definition gathered {Raw R : Type} (conv : Raw -> R) (time : Raw -> Z)
    (store : list Raw) (end_date c0 : Z) (file : option (list R))
    (w : Walker R) : Prop :=
  exists c,
    current_start w = Some c /\ c0 <= c
    /\ (forall r, In r store -> c0 <= time r < c -> time r <= end_date ->
                  In (conv r) (concat (all_data w)))
    /\ (forall y, In y (concat (all_data w)) ->
                  In y (concat (initial_frames file))
                  \/ exists r, In r store /\ y = conv r
                               /\ c0 <= time r <= end_date).

(** Two walker states that stand at the same cursor with buffers that
    combine to the same frame. *)
Definition same_progress {R : Type} (key : R -> Z) (w' w : Walker R)
  : Prop :=
  current_start w' = current_start w
  /\ combine key (all_data w') = combine key (all_data w)
  /\ all_data w' <> [] /\ all_data w <> [].

(** ** Output files *)

Module Paths.
Import Stdlib.Strings.Ascii Stdlib.Strings.String.
Local Open Scope string_scope.

(** [not output_file]: the argument was left out ([None]) or is the empty
    string. *)
Definition not_given (output_file : option string) : bool :=
  match output_file with
  | None => true
  | Some EmptyString => true
  | Some _ => false
  end.

(** Lines 124-125. *)
Definition klines_output_file (symbol interval : string)
    (output_file : option string) : string :=
  match output_file with
  | Some path =>
      if not_given (Some path)
      then "data/" ++ symbol ++ "_" ++ interval ++ "_klines.csv"
      else path
  | None => "data/" ++ symbol ++ "_" ++ interval ++ "_klines.csv"
  end.

(** Lines 208-209. *)
Definition funding_output_file (symbol : string)
    (output_file : option string) : string :=
  match output_file with
  | Some path =>
      if not_given (Some path)
      then "data/" ++ symbol ++ "_funding_rates.csv"
      else path
  | None => "data/" ++ symbol ++ "_funding_rates.csv"
  end.

(** The characters of a string, and strings without an underscore. *)
Definition chars (s : string) : list Ascii.ascii := list_ascii_of_string s.

Definition no_underscore (s : string) : Prop :=
  ~ In "_"%char (chars s).

End Paths.

(** What the file holds against the buffer: the buffer is a part already
    saved followed by at most nine frames, and the file holds the frame
    combined from the saved part, or is still the file the run started from
    when nothing has been written yet. *)
Definition at_most_nine_behind {R : Type} (key : R -> Z)
    (file : option (list R)) (w : Walker R) : Prop :=
  exists saved rest,
    all_data w = saved ++ rest
    /\ (length rest <= 9)%nat
    /\ ((disk w = file /\ saved = initial_frames file)
        \/ disk w = Some (combine key saved)).
(** ** The two functions are the walker *)

Lemma klines_batch_is_page_source (net : Net RawKline) tr c e l :
  fetch_klines_batch net tr c e l = page_source kline_of_raw net tr c e l.
Proof.
  unfold fetch_klines_batch, page_source.
  destruct (net (requests_made tr) c e) as [| | |raw]; try reflexivity.
  destruct raw; reflexivity.
Qed.

Lemma funding_batch_is_page_source (net : Net RawFunding) tr c e l :
  fetch_funding_rates_batch net tr c e l
  = page_source funding_of_raw net tr c e l.
Proof.
  unfold fetch_funding_rates_batch, page_source.
  destruct (net (requests_made tr) c e) as [| | |raw]; try reflexivity.
  destruct raw; reflexivity.
Qed.

Lemma klines_body_is_walker (net : Net RawKline) end_date w :
  Klines.body net end_date w
  = walker_body open_time (page_source kline_of_raw net) end_date w.
Proof.
  unfold Klines.body, walker_body.
  destruct (current_start w) as [cur|]; [|reflexivity].
  rewrite klines_batch_is_page_source.
  destruct (page_source kline_of_raw net (LogFetching cur :: trace w)
              cur end_date 1000) as [[page|] tr]; reflexivity.
Qed.

Lemma funding_body_is_walker (net : Net RawFunding) end_date w :
  Funding.body net end_date w
  = walker_body fundingTime (page_source funding_of_raw net) end_date w.
Proof.
  unfold Funding.body, walker_body.
  destruct (current_start w) as [cur|]; [|reflexivity].
  rewrite funding_batch_is_page_source.
  destruct (page_source funding_of_raw net (LogFetching cur :: trace w)
              cur end_date 1000) as [[page|] tr]; reflexivity.
Qed.

Lemma while_ext (S : Type) (cond : S -> bool) (b1 b2 : S -> Flow S) :
  (forall s, b1 s = b2 s) ->
  forall fuel s, while cond b1 fuel s = while cond b2 fuel s.
Proof.
  intros Hb fuel; induction fuel as [|fuel IH]; intros s; simpl.
  - reflexivity.
  - destruct (cond s); [|reflexivity].
    rewrite Hb. destruct (b2 s); [apply IH|reflexivity].
Qed.

Lemma klines_loop_is_walker net end_date fuel w :
  Klines.loop net end_date fuel w
  = walker_loop open_time (page_source kline_of_raw net) end_date fuel w.
Proof.
  unfold Klines.loop, walker_loop.
  apply (while_ext _ _ _ (klines_body_is_walker net end_date)).
Qed.

Lemma funding_loop_is_walker net end_date fuel w :
  Funding.loop net end_date fuel w
  = walker_loop fundingTime (page_source funding_of_raw net) end_date fuel w.
Proof.
  unfold Funding.loop, walker_loop.
  apply (while_ext _ _ _ (funding_body_is_walker net end_date)).
Qed.

Lemma klines_is_walker net start_date end_date file fuel :
  Klines.fetch_historical_klines net start_date end_date file fuel
  = incremental_walker open_time (page_source kline_of_raw net)
      start_date end_date file fuel.
Proof.
  unfold Klines.fetch_historical_klines, incremental_walker.
  rewrite klines_loop_is_walker. reflexivity.
Qed.

Lemma funding_is_walker net start_date end_date file fuel :
  Funding.fetch_historical_funding_rates net start_date end_date file fuel
  = incremental_walker fundingTime (page_source funding_of_raw net)
      start_date end_date file fuel.
Proof.
  unfold Funding.fetch_historical_funding_rates, incremental_walker.
  rewrite funding_loop_is_walker. reflexivity.
Qed.

(** ** Facts about the pandas operations *)

Section PandasFacts.
Variable R : Type.
Variable key : R -> Z.

Lemma column_max_nil (df : list R) :
  column_max key df = None <-> df = [].
Proof.
  destruct df as [|r rest]; simpl.
  - tauto.
  - destruct (column_max key rest); split; discriminate.
Qed.

Lemma column_max_upper (df : list R) (m : Z) :
  column_max key df = Some m -> forall r, In r df -> key r <= m.
Proof.
  revert m; induction df as [|x rest IH]; simpl; intros m Hm r Hr.
  - contradiction.
  - destruct (column_max key rest) as [m'|] eqn:E.
    + injection Hm as <-. destruct Hr as [<-|Hr].
      * lia.
      * specialize (IH m' eq_refl r Hr). lia.
    + injection Hm as <-. destruct Hr as [<-|Hr]; [lia|].
      apply column_max_nil in E. subst rest. contradiction.
Qed.

Lemma column_max_attained (df : list R) (m : Z) :
  column_max key df = Some m -> exists r, In r df /\ key r = m.
Proof.
  revert m; induction df as [|x rest IH]; simpl; intros m Hm.
  - discriminate.
  - destruct (column_max key rest) as [m'|] eqn:E.
    + injection Hm as <-.
      destruct (Z.max_spec (key x) m') as [[_ ->]|[_ ->]].
      * destruct (IH m' eq_refl) as (r & Hr & Hk). exists r; auto.
      * exists x; auto.
    + injection Hm as <-. exists x; auto.
Qed.

(** The maximum is determined by the set of keys. *)
Lemma column_max_unique (df : list R) (m : Z) :
  (exists r, In r df /\ key r = m) ->
  (forall r, In r df -> key r <= m) ->
  column_max key df = Some m.
Proof.
  intros (r & Hr & Hk) Hub.
  destruct (column_max key df) as [m'|] eqn:E.
  - f_equal.
    pose proof (column_max_upper _ E _ Hr).
    destruct (column_max_attained _ E) as (r' & Hr' & Hk').
    specialize (Hub r' Hr'). lia.
  - apply column_max_nil in E. subst df. contradiction.
Qed.

(** *** [drop_duplicates] *)

Lemma drop_duplicates_incl (df : list R) (r : R) :
  In r (drop_duplicates key df) -> In r df.
Proof.
  induction df as [|x rest IH]; simpl; [tauto|].
  intros [->|H]; [auto|].
  apply filter_In in H. right; apply IH; tauto.
Qed.

Lemma drop_duplicates_keys (df : list R) (k : Z) :
  In k (map key df) <-> In k (map key (drop_duplicates key df)).
Proof.
  induction df as [|x rest IH]; simpl; [tauto|].
  split.
  - intros [H|H]; [auto|].
    destruct (Z.eq_dec (key x) k) as [E|NE]; [auto|].
    right. apply IH in H. apply in_map_iff in H as (r & Hk & Hr).
    apply in_map_iff. exists r; split; [assumption|].
    apply filter_In; split; [assumption|].
    apply negb_true_iff, Z.eqb_neq. congruence.
  - intros [H|H]; [auto|].
    right. apply IH. apply in_map_iff in H as (r & Hk & Hr).
    apply filter_In in Hr as [Hr _].
    apply in_map_iff. exists r; auto.
Qed.

Lemma filter_keys_NoDup (p : R -> bool) (l : list R) :
  NoDup (map key l) -> NoDup (map key (filter p l)).
Proof.
  induction l as [|x rest IH]; simpl; intros H; [constructor|].
  apply NoDup_cons_iff in H as [Hx Hrest].
  destruct (p x); simpl; [|auto].
  constructor; [|auto].
  intros Hin; apply Hx.
  apply in_map_iff in Hin as (r & Hk & Hr).
  apply filter_In in Hr as [Hr _].
  apply in_map_iff. exists r; auto.
Qed.

Lemma drop_duplicates_NoDup (df : list R) :
  NoDup (map key (drop_duplicates key df)).
Proof.
  induction df as [|x rest IH]; simpl; constructor.
  - intros Hin. apply in_map_iff in Hin as (r & Hk & Hr).
    apply filter_In in Hr as [_ Hr].
    apply negb_true_iff, Z.eqb_neq in Hr. congruence.
  - apply filter_keys_NoDup, IH.
Qed.

Lemma filter_all (p : R -> bool) (l : list R) :
  (forall r, In r l -> p r = true) -> filter p l = l.
Proof.
  induction l as [|x rest IH]; simpl; intros H; [reflexivity|].
  rewrite (H x) by auto. f_equal. apply IH; auto.
Qed.

Lemma drop_duplicates_unique (df : list R) :
  NoDup (map key df) -> drop_duplicates key df = df.
Proof.
  induction df as [|x rest IH]; simpl; intros H; [reflexivity|].
  apply NoDup_cons_iff in H as [Hx Hrest].
  rewrite (IH Hrest). f_equal.
  apply filter_all. intros r Hr.
  apply negb_true_iff, Z.eqb_neq. intros E. apply Hx.
  rewrite <- E. apply in_map; assumption.
Qed.

Lemma find_filter (p q : R -> bool) (l : list R) :
  (forall r, p r = true -> q r = true) ->
  find p (filter q l) = find p l.
Proof.
  intros Hpq. induction l as [|x rest IH]; simpl; [reflexivity|].
  destruct (q x) eqn:Q; simpl.
  - destruct (p x); [reflexivity|apply IH].
  - destruct (p x) eqn:P; [|apply IH].
    rewrite (Hpq x P) in Q. discriminate.
Qed.

(** First-seen wins: the row kept for a key is the first row of the frame
    with that key. *)
Lemma drop_duplicates_first (df : list R) (k : Z) :
  find (has_key key k) (drop_duplicates key df) = find (has_key key k) df.
Proof.
  induction df as [|x rest IH]; simpl; [reflexivity|].
  destruct (has_key key k x) eqn:E; [reflexivity|].
  rewrite find_filter; [apply IH|].
  intros r Hr. unfold has_key in *.
  apply Z.eqb_eq in Hr. apply Z.eqb_neq in E.
  apply negb_true_iff, Z.eqb_neq. congruence.
Qed.

(** *** [sort_values] *)

Lemma insert_row_perm (r : R) (l : list R) :
  Permutation (insert_row key r l) (r :: l).
Proof.
  induction l as [|x rest IH]; simpl; [reflexivity|].
  destruct (key r <=? key x); [reflexivity|].
  rewrite IH. apply perm_swap.
Qed.

Lemma sort_values_perm (df : list R) :
  Permutation (sort_values key df) df.
Proof.
  induction df as [|x rest IH]; simpl; [constructor|].
  rewrite insert_row_perm. constructor; assumption.
Qed.

Lemma insert_row_sorted (r : R) (l : list R) :
  StronglySorted (le_key key) l -> StronglySorted (le_key key) (insert_row key r l).
Proof.
  induction l as [|x rest IH]; simpl; intros H.
  - repeat constructor.
  - apply StronglySorted_inv in H as [Hrest Hx].
    destruct (key r <=? key x) eqn:E.
    + apply Z.leb_le in E. constructor; [constructor; assumption|].
      constructor; [exact E|].
      eapply Forall_impl; [|exact Hx].
      intros a Ha. unfold le_key in *. lia.
    + apply Z.leb_gt in E. constructor; [auto|].
      apply Forall_forall. intros a Ha.
      apply (Permutation_in _ (insert_row_perm r rest)) in Ha.
      destruct Ha as [<-|Ha].
      * unfold le_key; lia.
      * rewrite Forall_forall in Hx. auto.
Qed.

Lemma sort_values_sorted (df : list R) :
  StronglySorted (le_key key) (sort_values key df).
Proof.
  induction df as [|x rest IH]; simpl; [constructor|].
  apply insert_row_sorted; assumption.
Qed.

Lemma sort_values_of_sorted (df : list R) :
  StronglySorted (le_key key) df -> sort_values key df = df.
Proof.
  induction df as [|x rest IH]; simpl; intros H; [reflexivity|].
  apply StronglySorted_inv in H as [Hrest Hx].
  rewrite (IH Hrest).
  destruct rest as [|y rest]; simpl; [reflexivity|].
  apply Forall_inv in Hx. unfold le_key in Hx.
  apply Z.leb_le in Hx. rewrite Hx. reflexivity.
Qed.

Lemma sorted_unique_strict (l : list R) :
  StronglySorted (le_key key) l -> NoDup (map key l) -> StronglySorted (lt_key key) l.
Proof.
  induction l as [|x rest IH]; simpl; intros Hs Hn; [constructor|].
  apply StronglySorted_inv in Hs as [Hrest Hx].
  apply NoDup_cons_iff in Hn as [Hnx Hn].
  constructor; [auto|].
  rewrite Forall_forall in *. intros a Ha.
  specialize (Hx a Ha). unfold le_key, lt_key in *.
  assert (key a <> key x).
  { intros E. apply Hnx. rewrite <- E. apply in_map; assumption. }
  lia.
Qed.

Lemma strict_weaken (l : list R) :
  StronglySorted (lt_key key) l -> StronglySorted (le_key key) l.
Proof.
  induction 1 as [|x rest Hs IH Hx]; constructor; [assumption|].
  eapply Forall_impl; [|exact Hx].
  unfold lt_key, le_key; intros; lia.
Qed.

Lemma strict_keys (l : list R) :
  StronglySorted (lt_key key) l -> StronglySorted Z.lt (map key l).
Proof.
  induction 1 as [|x rest Hs IH Hx]; simpl; constructor; [assumption|].
  apply Forall_forall. intros k Hk.
  apply in_map_iff in Hk as (r & <- & Hr).
  rewrite Forall_forall in Hx. apply Hx; assumption.
Qed.

Lemma keys_strict (l : list R) :
  StronglySorted Z.lt (map key l) -> StronglySorted (lt_key key) l.
Proof.
  induction l as [|x rest IH]; simpl; intros H; [constructor|].
  apply StronglySorted_inv in H as [Hrest Hx].
  constructor; [auto|].
  apply Forall_forall. intros r Hr.
  rewrite Forall_forall in Hx. apply Hx. apply in_map; assumption.
Qed.

Lemma strict_NoDup (ks : list Z) :
  StronglySorted Z.lt ks -> NoDup ks.
Proof.
  induction 1 as [|x rest Hs IH Hx]; constructor; [|assumption].
  intros Hin. rewrite Forall_forall in Hx.
  specialize (Hx x Hin). lia.
Qed.
End PandasFacts.

(** ** Facts about [combine], the frame every persist writes *)

Section CombineFacts.
Variable R : Type.
Variable key : R -> Z.

Lemma same_key_same_row (l : list R) (a b : R) :
  NoDup (map key l) -> In a l -> In b l -> key a = key b -> a = b.
Proof.
  induction l as [|x rest IH]; simpl; intros Hn Ha Hb E; [contradiction|].
  apply NoDup_cons_iff in Hn as [Hx Hn].
  destruct Ha as [<-|Ha], Hb as [<-|Hb]; auto.
  - exfalso; apply Hx. rewrite E. apply in_map; assumption.
  - exfalso; apply Hx. rewrite <- E. apply in_map; assumption.
Qed.

Lemma find_has_key (l : list R) (k : Z) (r : R) :
  find (has_key key k) l = Some r -> In r l /\ key r = k.
Proof.
  intros H. apply find_some in H as [Hin Hk].
  split; [assumption|]. apply Z.eqb_eq; exact Hk.
Qed.

Lemma find_perm_unique (l l' : list R) (k : Z) :
  Permutation l l' -> NoDup (map key l) ->
  find (has_key key k) l = find (has_key key k) l'.
Proof.
  intros Hp Hn.
  destruct (find (has_key key k) l) as [a|] eqn:Ea;
    destruct (find (has_key key k) l') as [b|] eqn:Eb; try reflexivity.
  - apply find_has_key in Ea as [Ha Hka]. apply find_has_key in Eb as [Hb Hkb].
    f_equal. apply (same_key_same_row l); try assumption; [|congruence].
    apply (Permutation_in _ (Permutation_sym Hp)); assumption.
  - apply find_has_key in Ea as [Ha Hka].
    pose proof (find_none _ _ Eb a (Permutation_in _ Hp Ha)) as F.
    unfold has_key in F. apply Z.eqb_neq in F. contradiction.
  - apply find_has_key in Eb as [Hb Hkb].
    pose proof (find_none _ _ Ea b
                  (Permutation_in _ (Permutation_sym Hp) Hb)) as F.
    unfold has_key in F. apply Z.eqb_neq in F. contradiction.
Qed.

Lemma combine_NoDup (frames : list (list R)) :
  NoDup (map key (combine key frames)).
Proof.
  unfold combine.
  apply (Permutation_NoDup
           (Permutation_sym (Permutation_map key (sort_values_perm key _)))).
  apply drop_duplicates_NoDup.
Qed.

Lemma combine_strict (frames : list (list R)) :
  StronglySorted (lt_key key) (combine key frames).
Proof.
  apply sorted_unique_strict.
  - apply sort_values_sorted.
  - apply combine_NoDup.
Qed.

(** Every persisted frame has strictly increasing primary times. *)
Lemma combine_increasing (frames : list (list R)) :
  Sorted Z.lt (map key (combine key frames))
  /\ NoDup (map key (combine key frames)).
Proof.
  split.
  - apply StronglySorted_Sorted, strict_keys, combine_strict.
  - apply combine_NoDup.
Qed.

Lemma combine_incl (frames : list (list R)) (r : R) :
  In r (combine key frames) -> In r (concat frames).
Proof.
  unfold combine. intros H.
  apply (Permutation_in _ (sort_values_perm key _)) in H.
  apply drop_duplicates_incl in H. exact H.
Qed.

(** The row persisted for a time is the first row of the buffer with that
    time. *)
Lemma combine_first (frames : list (list R)) (k : Z) :
  find (has_key key k) (combine key frames)
  = find (has_key key k) (concat frames).
Proof.
  unfold combine.
  rewrite (find_perm_unique k (sort_values_perm key _) (combine_NoDup _)).
  apply drop_duplicates_first.
Qed.

Lemma combine_keys (frames : list (list R)) (k : Z) :
  In k (map key (combine key frames)) <-> In k (map key (concat frames)).
Proof.
  unfold combine. rewrite (drop_duplicates_keys key (concat frames) k).
  split; apply Permutation_in; [|apply Permutation_sym];
    apply Permutation_map, sort_values_perm.
Qed.

Lemma column_max_keys (l1 l2 : list R) :
  (forall k, In k (map key l1) <-> In k (map key l2)) ->
  column_max key l1 = column_max key l2.
Proof.
  intros H.
  destruct (column_max key l1) as [m|] eqn:E.
  - symmetry. apply column_max_unique.
    + destruct (column_max_attained _ _ E) as (r & Hr & Hk).
      assert (Hin : In m (map key l2)).
      { apply H. rewrite <- Hk. apply in_map; assumption. }
      apply in_map_iff in Hin as (r' & ? & ?). exists r'; auto.
    + intros r Hr.
      assert (Hin : In (key r) (map key l1)).
      { apply H. apply in_map; assumption. }
      apply in_map_iff in Hin as (r' & Hk & Hr').
      rewrite <- Hk. apply (column_max_upper _ _ E); assumption.
  - apply column_max_nil in E. subst l1.
    destruct l2 as [|x l2]; [reflexivity|].
    exfalso. apply (proj2 (H (key x))). left; reflexivity.
Qed.

Lemma column_max_combine (frames : list (list R)) :
  column_max key (combine key frames) = column_max key (concat frames).
Proof. apply column_max_keys, combine_keys. Qed.

(** A frame that is already a dataset is written back unchanged. *)
Lemma combine_dataset (df : list R) :
  StronglySorted (lt_key key) df -> combine key [df] = df.
Proof.
  intros H. unfold combine. simpl. rewrite app_nil_r.
  rewrite drop_duplicates_unique.
  - apply sort_values_of_sorted, strict_weaken, H.
  - apply strict_NoDup, strict_keys, H.
Qed.

Lemma combine_idempotent (frames : list (list R)) :
  combine key [combine key frames] = combine key frames.
Proof. apply combine_dataset, combine_strict. Qed.
End CombineFacts.

(** ** Facts about [while] *)

Section WhileFacts.
Variable S : Type.
Variable cond : S -> bool.
Variable body : S -> Flow S.

(** An invariant of the body holds wherever the loop stands. *)
Lemma while_invariant (P : S -> Prop) :
  (forall s, P s -> cond s = true -> P (flow_state (body s))) ->
  forall fuel s, P s -> P (state_of (while cond body fuel s)).
Proof.
  intros Hstep fuel; induction fuel as [|fuel IH]; intros s Hs; simpl.
  - destruct (cond s); exact Hs.
  - destruct (cond s) eqn:C; [|exact Hs].
    specialize (Hstep s Hs C).
    destruct (body s) as [s'|s']; simpl in *; [apply IH|]; assumption.
Qed.

(** What holds when the loop has exited. *)
Lemma while_exit (P T : S -> Prop) :
  (forall s, P s -> cond s = true -> P (flow_state (body s))) ->
  (forall s, P s -> cond s = false -> T s) ->
  (forall s s', P s -> cond s = true -> body s = Break s' -> T s') ->
  forall fuel s s', P s -> while cond body fuel s = Finished s' -> T s'.
Proof.
  intros Hstep Hcond Hbreak fuel; induction fuel as [|fuel IH];
    intros s s' Hs; simpl.
  - destruct (cond s) eqn:C; [discriminate|].
    intros [= <-]. auto.
  - destruct (cond s) eqn:C.
    + pose proof (Hstep s Hs C) as Hn.
      destruct (body s) as [s1|s1] eqn:B; simpl in Hn.
      * apply IH; assumption.
      * intros [= <-]. apply (Hbreak s); assumption.
    + intros [= <-]. auto.
Qed.

(** A measure that every continuing iteration decreases bounds the
    number of iterations. *)
Lemma while_terminates (P : S -> Prop) (measure : S -> nat) :
  (forall s, P s -> cond s = true -> P (flow_state (body s))) ->
  (forall s, P s -> cond s = true -> (0 < measure s)%nat) ->
  (forall s s', P s -> cond s = true -> body s = Continue s' ->
                (measure s' < measure s)%nat) ->
  forall fuel s, P s -> (measure s <= fuel)%nat ->
                 exists s', while cond body fuel s = Finished s'.
Proof.
  intros Hstep Hpos Hdec fuel; induction fuel as [|fuel IH]; intros s Hs Hm;
    simpl.
  - destruct (cond s) eqn:C; [|eauto].
    specialize (Hpos s Hs C). lia.
  - destruct (cond s) eqn:C; [|eauto].
    pose proof (Hstep s Hs C) as Hn.
    destruct (body s) as [s1|s1] eqn:B; [|eauto].
    apply IH; [exact Hn|].
    specialize (Hdec s s1 Hs C B). lia.
Qed.
End WhileFacts.

(** ** One iteration of the walker *)

Section WalkerStep.
Variables Raw R : Type.
Variable conv : Raw -> R.
Variable key : R -> Z.
Variable net : Net Raw.
Variable end_date : Z.

Let fetch := page_source conv net.
Let body := walker_body key fetch end_date.

Lemma walker_body_page (w : Walker R) (c : Z) (x : Raw) (raw : list Raw) :
  current_start w = Some c ->
  net (requests_made (trace w)) c end_date = JsonArray (x :: raw) ->
  body w =
    if (length (x :: raw) <? 1000)%nat
    then Break (page_step key end_date w c (map conv (x :: raw)))
    else Continue (page_step key end_date w c (map conv (x :: raw))).
Proof.
  intros Hc Hnet. unfold body, walker_body, fetch, page_source.
  rewrite Hc. change (requests_made (LogFetching c :: trace w))
    with (requests_made (trace w)).
  rewrite Hnet. cbv beta iota.
  rewrite length_map. reflexivity.
Qed.

Lemma walker_body_stop (w : Walker R) (c : Z) :
  current_start w = Some c ->
  (forall x raw,
      net (requests_made (trace w)) c end_date <> JsonArray (x :: raw)) ->
  body w =
    Break (stop_step end_date w c
             (is_failure (net (requests_made (trace w)) c end_date))).
Proof.
  intros Hc Hnet. unfold body, walker_body, fetch, page_source.
  rewrite Hc. change (requests_made (LogFetching c :: trace w))
    with (requests_made (trace w)).
  destruct (net (requests_made (trace w)) c end_date) as [| | |raw];
    try reflexivity.
  destruct raw as [|x raw]; [reflexivity|].
  exfalso. apply (Hnet x raw). reflexivity.
Qed.

(** The two ways an iteration can go. *)
Lemma walker_body_cases (w : Walker R) :
  walker_cond end_date w = true ->
  exists c,
    current_start w = Some c /\ c < end_date /\
    ((exists x raw,
         net (requests_made (trace w)) c end_date = JsonArray (x :: raw) /\
         body w =
           if (length (x :: raw) <? 1000)%nat
           then Break (page_step key end_date w c (map conv (x :: raw)))
           else Continue (page_step key end_date w c (map conv (x :: raw))))
     \/ ((forall x raw,
             net (requests_made (trace w)) c end_date
             <> JsonArray (x :: raw))
         /\ exists failed, body w = Break (stop_step end_date w c failed))).
Proof.
  unfold walker_cond, lt_instant. intros Hcond.
  destruct (current_start w) as [c|] eqn:Hc; [|discriminate].
  exists c. split; [reflexivity|]. split; [apply Z.ltb_lt; exact Hcond|].
  destruct (net (requests_made (trace w)) c end_date) as [| | |raw] eqn:E.
  1-3: right; split; [discriminate|]; eexists; apply walker_body_stop;
    [assumption | rewrite E; discriminate].
  destruct raw as [|x raw].
  - right; split; [discriminate|]; eexists; apply walker_body_stop;
      [assumption | rewrite E; discriminate].
  - left. exists x, raw. split; [reflexivity|].
    apply walker_body_page; assumption.
Qed.

Lemma flow_state_if (b : bool) (s : Walker R) :
  flow_state (if b then Break s else Continue s) = s.
Proof. destruct b; reflexivity. Qed.

(** *** The fields after a page *)

Lemma page_step_all_data (w : Walker R) c page :
  all_data (page_step key end_date w c page) = all_data w ++ [page].
Proof.
  unfold page_step, checkpoint. simpl.
  destruct (_ =? 0)%nat; reflexivity.
Qed.

Lemma page_step_cursor (w : Walker R) c page :
  current_start (page_step key end_date w c page)
  = add_ms (column_max key page).
Proof.
  unfold page_step, checkpoint. simpl.
  destruct (_ =? 0)%nat; reflexivity.
Qed.

Lemma page_step_trace (w : Walker R) c page :
  trace (page_step key end_date w c page)
  = Sleep ::
    (if (length (all_data w ++ [page]) mod 10 =? 0)%nat
     then [LogCheckpoint (length (combine key (all_data w ++ [page])));
           ToCsv (combine key (all_data w ++ [page]))]
     else []) ++
    LogFetched (length page) (total_fetched w + length page)%nat
               (column_max key page)
    :: HttpGet c end_date 1000 :: LogFetching c :: trace w.
Proof.
  unfold page_step, checkpoint. simpl.
  destruct (_ =? 0)%nat; reflexivity.
Qed.

Lemma page_step_disk (w : Walker R) c page :
  disk (page_step key end_date w c page)
  = if (length (all_data w ++ [page]) mod 10 =? 0)%nat
    then Some (combine key (all_data w ++ [page]))
    else disk w.
Proof.
  unfold page_step, checkpoint. simpl.
  destruct (_ =? 0)%nat; reflexivity.
Qed.

Lemma stop_step_trace (w : Walker R) c failed :
  trace (stop_step end_date w c failed)
  = @LogNoMoreData R :: (if failed then [LogError] else []) ++
    HttpGet c end_date 1000 :: LogFetching c :: trace w.
Proof. reflexivity. Qed.

Lemma page_step_requests (w : Walker R) c page :
  requests_made (trace (page_step key end_date w c page))
  = S (requests_made (trace w)).
Proof.
  rewrite page_step_trace.
  destruct (_ =? 0)%nat; reflexivity.
Qed.

Lemma stop_step_requests (w : Walker R) c failed :
  requests_made (trace (stop_step end_date w c failed))
  = S (requests_made (trace w)).
Proof. destruct failed; reflexivity. Qed.

Lemma page_step_to_csv (w : Walker R) c page rows :
  In (ToCsv rows) (trace (page_step key end_date w c page)) ->
  rows = combine key (all_data w ++ [page])
  \/ In (ToCsv rows) (trace w).
Proof.
  rewrite page_step_trace.
  destruct (_ =? 0)%nat; simpl; intros H.
  - destruct H as [H|[H|[H|[H|[H|[H|H]]]]]]; try discriminate; auto.
    injection H as <-. auto.
  - destruct H as [H|[H|[H|[H|H]]]]; try discriminate; auto.
Qed.

Lemma stop_step_to_csv (w : Walker R) c failed rows :
  In (ToCsv rows) (trace (stop_step end_date w c failed)) ->
  In (ToCsv rows) (trace w).
Proof.
  rewrite stop_step_trace.
  destruct failed; simpl; intros H.
  - destruct H as [H|[H|[H|[H|H]]]]; try discriminate; auto.
  - destruct H as [H|[H|[H|H]]]; try discriminate; auto.
Qed.

Lemma page_step_pages_since (w : Walker R) c page :
  pages_since_checkpoint (trace (page_step key end_date w c page))
  = if (length (all_data w ++ [page]) mod 10 =? 0)%nat
    then 0%nat
    else S (pages_since_checkpoint (trace w)).
Proof.
  rewrite page_step_trace.
  destruct (_ =? 0)%nat; reflexivity.
Qed.

Lemma stop_step_pages_since (w : Walker R) c failed :
  pages_since_checkpoint (trace (stop_step end_date w c failed))
  = pages_since_checkpoint (trace w).
Proof. destruct failed; reflexivity. Qed.

Lemma page_step_just_checkpointed (w : Walker R) c page :
  just_checkpointed (trace (page_step key end_date w c page))
  = (length (all_data w ++ [page]) mod 10 =? 0)%nat.
Proof.
  rewrite page_step_trace.
  destruct (_ =? 0)%nat; reflexivity.
Qed.
End WalkerStep.

(** ** Invariants of the paging loop *)

Section WalkerRun.
Variables Raw R : Type.
Variable conv : Raw -> R.
Variable key : R -> Z.
Variable net : Net Raw.
Variable end_date : Z.

Let fetch := page_source conv net.
Let body := walker_body key fetch end_date.
Let cond := walker_cond (R:=R) end_date.

(** Every iteration leaves one of the two kinds of state. *)
Lemma body_state (P : Walker R -> Prop) (w : Walker R) :
  cond w = true ->
  (forall c x raw,
      current_start w = Some c -> c < end_date ->
      net (requests_made (trace w)) c end_date = JsonArray (x :: raw) ->
      P (page_step key end_date w c (map conv (x :: raw)))) ->
  (forall c failed,
      current_start w = Some c -> c < end_date ->
      P (stop_step end_date w c failed)) ->
  P (flow_state (body w)).
Proof.
  intros Hc Hpage Hstop.
  destruct (@walker_body_cases _ _ conv key net end_date w Hc)
    as (c & Hcur & Hlt & [(x & raw & Hnet & Hb)|(_ & failed & Hb)]);
    fold fetch in Hb; fold body in Hb; rewrite Hb.
  - rewrite flow_state_if. eapply Hpage; eassumption.
  - simpl. apply Hstop; assumption.
Qed.

Lemma body_snapshots (init : list (list R)) (w : Walker R) :
  snapshots_of key init w -> cond w = true ->
  snapshots_of key init (flow_state (body w)).
Proof.
  intros [(pages & Hall) Hcsv] Hc.
  apply body_state; [assumption| |].
  - intros c x raw _ _ _. split.
    + exists (pages ++ [map conv (x :: raw)]).
      rewrite page_step_all_data, Hall, app_assoc. reflexivity.
    + intros rows Hin. apply page_step_to_csv in Hin as [->|Hin]; [|auto].
      exists (pages ++ [map conv (x :: raw)]).
      rewrite Hall, app_assoc. reflexivity.
  - intros c failed _ _. split.
    + exists pages. exact Hall.
    + intros rows Hin. apply stop_step_to_csv in Hin. auto.
Qed.

Lemma loop_snapshots (init : list (list R)) (fuel : nat) (w : Walker R) :
  snapshots_of key init w ->
  snapshots_of key init (state_of (walker_loop key fetch end_date fuel w)).
Proof.
  unfold walker_loop. apply while_invariant. apply body_snapshots.
Qed.

Lemma resume_snapshots (start_date : Z) (file : option (list R)) :
  snapshots_of key (initial_frames file) (walker_resume key start_date file).
Proof.
  destruct file as [existing|]; simpl; (split; [exists []; reflexivity|]);
    simpl; intros rows [H|[]]; discriminate.
Qed.

Lemma done_snapshots (init : list (list R)) (w : Walker R) :
  snapshots_of key init w ->
  snapshots_of key init (run_state (walker_done key w))
  /\ forall rows w', walker_done key w = Returned (Some rows) w' ->
                     exists pages, rows = combine key (init ++ pages).
Proof.
  intros [(pages & Hall) Hcsv]. unfold walker_done.
  destruct (truthy (all_data w)); simpl.
  - split; [split|].
    + exists pages; exact Hall.
    + intros rows [H|[H|H]]; try discriminate; [|auto].
      injection H as <-. exists pages. rewrite Hall. reflexivity.
    + intros rows w' [= <- _]. exists pages. rewrite Hall. reflexivity.
  - split; [split|].
    + exists pages; exact Hall.
    + intros rows [H|H]; [discriminate|auto].
    + intros rows w' H; discriminate.
Qed.

(** Whatever the provider does and however long the run has lasted, the
    frames written so far and the returned frame are [combine] of the
    existing dataset followed by fetched pages. *)
Lemma walker_snapshots (start_date : Z) (file : option (list R))
    (fuel : nat) :
  let run := incremental_walker key fetch start_date end_date file fuel in
  (forall rows, In (ToCsv rows) (trace (run_state run)) ->
                exists pages, rows = combine key (initial_frames file ++ pages))
  /\ forall rows w, run = Returned (Some rows) w ->
                    exists pages,
                      rows = combine key (initial_frames file ++ pages).
Proof.
  cbv zeta. unfold incremental_walker.
  pose proof (loop_snapshots fuel (resume_snapshots start_date file)) as H.
  destruct (walker_loop key fetch end_date fuel
              (walker_resume key start_date file)) as [w|w]; simpl in H.
  - destruct (done_snapshots H) as [[_ H1] H2]. split; assumption.
  - split; [apply H|]. intros rows w' E; discriminate.
Qed.

(** *** Pages since the last checkpoint *)

Lemma body_pages_since_le (w : Walker R) :
  (pages_since_checkpoint (trace w) <= length (all_data w) mod 10)%nat ->
  cond w = true ->
  (pages_since_checkpoint (trace (flow_state (body w)))
   <= length (all_data (flow_state (body w))) mod 10)%nat.
Proof.
  intros Hinv Hc. apply body_state; [assumption| |].
  - intros c x raw _ _ _.
    rewrite page_step_pages_since, page_step_all_data.
    rewrite length_app in *. simpl length in *.
    destruct ((length (all_data w) + 1) mod 10 =? 0)%nat eqn:E.
    + lia.
    + apply Nat.eqb_neq in E.
      pose proof (Nat.mod_upper_bound (length (all_data w)) 10).
      pose proof (Nat.mod_upper_bound (length (all_data w) + 1) 10).
      pose proof (Nat.div_mod_eq (length (all_data w)) 10).
      pose proof (Nat.div_mod_eq (length (all_data w) + 1) 10).
      lia.
  - intros c failed _ _.
    rewrite stop_step_pages_since. exact Hinv.
Qed.

Lemma body_pages_since_eq (w : Walker R) :
  (pages_since_checkpoint (trace w) = length (all_data w) mod 10)%nat ->
  cond w = true ->
  (pages_since_checkpoint (trace (flow_state (body w)))
   = length (all_data (flow_state (body w))) mod 10)%nat.
Proof.
  intros Hinv Hc. apply body_state; [assumption| |].
  - intros c x raw _ _ _.
    rewrite page_step_pages_since, page_step_all_data.
    rewrite length_app in *. simpl length in *.
    destruct ((length (all_data w) + 1) mod 10 =? 0)%nat eqn:E.
    + apply Nat.eqb_eq in E. lia.
    + apply Nat.eqb_neq in E.
      pose proof (Nat.mod_upper_bound (length (all_data w)) 10).
      pose proof (Nat.mod_upper_bound (length (all_data w) + 1) 10).
      pose proof (Nat.div_mod_eq (length (all_data w)) 10).
      pose proof (Nat.div_mod_eq (length (all_data w) + 1) 10).
      lia.
  - intros c failed _ _.
    rewrite stop_step_pages_since. exact Hinv.
Qed.

Lemma loop_pages_since (start_date : Z) (file : option (list R))
    (fuel : nat) :
  let w := state_of (walker_loop key fetch end_date fuel
                       (walker_resume key start_date file)) in
  (pages_since_checkpoint (trace w) <= length (all_data w) mod 10)%nat
  /\ (file = None ->
      pages_since_checkpoint (trace w) = (length (all_data w) mod 10)%nat).
Proof.
  cbv zeta. unfold walker_loop. split.
  - apply (while_invariant cond body
             (fun w => (pages_since_checkpoint (trace w)
                        <= length (all_data w) mod 10)%nat)).
    + apply body_pages_since_le.
    + destruct file; simpl; lia.
  - intros ->.
    apply (while_invariant cond body
             (fun w => (pages_since_checkpoint (trace w)
                        = length (all_data w) mod 10)%nat)).
    + apply body_pages_since_eq.
    + reflexivity.
Qed.
End WalkerRun.

(** * The claims *)

(** ** C1: persisted snapshots are deduplicated and sorted *)

(** C1.  Whatever the provider answers, whatever the existing file holds and
    however far the run has got, every frame a walker has written to its
    file (the checkpoints of every tenth frame and the final save alike)
    has strictly increasing primary times, none repeated: [open_time] for
    bars, [fundingTime] for funding rates. *)
Theorem persisted_snapshots_increasing
    (netK : Net RawKline) (netF : Net RawFunding)
    (start_date end_date : Z)
    (fileK : option (list BarRecord)) (fileF : option (list FundingRecord))
    (fuel : nat) :
  (forall rows,
      In (ToCsv rows)
         (trace (run_state (Klines.fetch_historical_klines
                              netK start_date end_date fileK fuel))) ->
      increasing open_time rows)
  /\ (forall rows,
      In (ToCsv rows)
         (trace (run_state (Funding.fetch_historical_funding_rates
                              netF start_date end_date fileF fuel))) ->
      increasing fundingTime rows).
Proof.
  rewrite klines_is_walker, funding_is_walker. split; intros rows Hin.
  - destruct (walker_snapshots kline_of_raw open_time netK end_date
                start_date fileK fuel) as [H _].
    destruct (H rows Hin) as (pages & ->). apply combine_increasing.
  - destruct (walker_snapshots funding_of_raw fundingTime netF end_date
                start_date fileF fuel) as [H _].
    destruct (H rows Hin) as (pages & ->). apply combine_increasing.
Qed.

(** A run over an unsorted file with a repeated time: the frame written is
    sorted and has each time once. *)
Lemma persisted_snapshots_increasing_witness :
  increasing open_time [bar_at 0 1%Q; bar_at 5 2%Q; bar_at 7 1%Q]
  /\ increasing fundingTime
       [funding_of_raw (raw_funding_at 0 2%Q);
        funding_of_raw (raw_funding_at 5 2%Q)].
Proof.
  split.
  - apply (proj1 (persisted_snapshots_increasing
                    two_bars_net two_rates_net 0 10
                    (Some [bar_at 7 1%Q; bar_at 0 1%Q; bar_at 7 3%Q])
                    None 3)).
    simpl. right. left. reflexivity.
  - apply (proj2 (persisted_snapshots_increasing
                    two_bars_net two_rates_net 0 10 None None 3)).
    simpl. right. left. reflexivity.
Defined.

(** ** C3: outcomes of a batch call *)



(** ** C10: what the file held is kept *)

Section KeptRows.
Variable R : Type.
Variable key : R -> Z.

Lemma find_app_first (p : R -> bool) (l1 l2 : list R) :
  find p (l1 ++ l2)
  = match find p l1 with
    | Some r => Some r
    | None => find p l2
    end.
Proof.
  induction l1 as [|x rest IH]; simpl; [reflexivity|].
  destruct (p x); [reflexivity|apply IH].
Qed.

Lemma find_key_present (l : list R) (k : Z) :
  In k (map key l) -> exists r, find (has_key key k) l = Some r.
Proof.
  intros H. apply in_map_iff in H as (r & Hk & Hr).
  destruct (find (has_key key k) l) as [r'|] eqn:E; [eauto|].
  pose proof (find_none _ _ E r Hr) as F.
  unfold has_key in F. apply Z.eqb_neq in F. contradiction.
Qed.

Lemma find_unique_row (l : list R) (r : R) :
  NoDup (map key l) -> In r l -> find (has_key key (key r)) l = Some r.
Proof.
  intros Hn Hr.
  destruct (find_key_present l (key r) (in_map key l r Hr)) as (r' & E).
  rewrite E. f_equal.
  apply find_has_key in E as [Hr' Hk].
  apply (same_key_same_row key l); assumption.
Qed.

(** In a frame combined from [existing] followed by pages, the row at a
    time the existing frame has is the existing frame's first row at that
    time. *)
Lemma combine_existing_first (existing : list R) (pages : list (list R))
    (k : Z) :
  In k (map key existing) ->
  find (has_key key k) (combine key ([existing] ++ pages))
  = find (has_key key k) existing.
Proof.
  intros Hk. rewrite combine_first. simpl. rewrite find_app_first.
  destruct (find_key_present existing k Hk) as (r & ->). reflexivity.
Qed.

Lemma combine_keeps_existing (existing : list R) (pages : list (list R)) :
  (NoDup (map key existing) ->
   forall r, In r existing -> In r (combine key ([existing] ++ pages)))
  /\ (forall r, In r (combine key ([existing] ++ pages)) ->
                In (key r) (map key existing) -> In r existing).
Proof.
  split.
  - intros Hn r Hr.
    pose proof (combine_existing_first existing pages (key r)
                  (in_map key _ _ Hr)) as E.
    rewrite (find_unique_row existing r Hn Hr) in E.
    apply find_some in E. tauto.
  - intros r Hr Hk.
    pose proof (combine_existing_first existing pages (key r) Hk) as E.
    rewrite (find_unique_row _ r (combine_NoDup key _) Hr) in E.
    symmetry in E. apply find_some in E. tauto.
Qed.
End KeptRows.

(** C10.  On a resume from a file holding [existing], take any frame the
    run writes to the file, checkpoint or final save, or the frame it
    returns.  When [existing] is a dataset (no two rows with the same
    [open_time], as in every file a walker writes), each of its rows is in
    that frame; and at every [open_time] that occurs in [existing], the row
    of the frame is the first row of [existing] with that time, so a fetched
    row never replaces it. *)
Theorem existing_rows_kept
    (net : Net RawKline) (start_date end_date : Z)
    (existing : list BarRecord) (fuel : nat) (rows : list BarRecord) :
  let run :=
    Klines.fetch_historical_klines net start_date end_date (Some existing)
                                   fuel in
  In (ToCsv rows) (trace (run_state run))
  \/ (exists w, run = Returned (Some rows) w) ->
  (NoDup (map open_time existing) ->
   forall r, In r existing -> In r rows)
  /\ (forall r, In r rows -> In (open_time r) (map open_time existing) ->
                In r existing)
  /\ (forall k, In k (map open_time existing) ->
                find (has_key open_time k) rows
                = find (has_key open_time k) existing).
Proof.
  cbv zeta. rewrite klines_is_walker. intros H.
  destruct (walker_snapshots kline_of_raw open_time net end_date
              start_date (Some existing) fuel) as [H1 H2].
  assert (exists pages, rows = combine open_time ([existing] ++ pages))
    as (pages & ->).
  { destruct H as [H|(w & H)]; [apply H1|apply (H2 _ _ H)]; assumption. }
  destruct (combine_keeps_existing open_time existing pages) as [Ha Hb].
  split; [exact Ha|]. split; [exact Hb|].
  intros k Hk. apply combine_existing_first; assumption.
Qed.

(** The file holds bars at 0 (volume 1) and 7; the provider sends bars at 0
    and 5 with volume 2.  The bar at 0 that is kept has volume 1. *)
Lemma existing_rows_kept_witness :
  In (bar_at 0 1%Q) [bar_at 0 1%Q; bar_at 5 2%Q; bar_at 7 1%Q]
  /\ find (has_key open_time 0) [bar_at 0 1%Q; bar_at 5 2%Q; bar_at 7 1%Q]
     = Some (bar_at 0 1%Q).
Proof.
  destruct (existing_rows_kept two_bars_net 0 10
              [bar_at 0 1%Q; bar_at 7 1%Q] 3
              (rows := [bar_at 0 1%Q; bar_at 5 2%Q; bar_at 7 1%Q]))
    as (Ha & _ & Hc).
  - left. simpl. right. left. reflexivity.
  - split.
    + apply Ha; [|left; reflexivity].
      simpl. repeat constructor; simpl; intuition discriminate.
    + rewrite (Hc 0); [reflexivity|]. left. reflexivity.
Defined.

(** ** C6: an empty range *)

(** C6.  With no file and [end_date <= start_date] the walker sends no
    request and returns [None]; with a file whose resumed cursor is at or
    after [end_date] the loop body never runs: no request is sent and the
    walker saves and returns the loaded rows, deduplicated and sorted, which
    for a file that is already a dataset are the rows as loaded. *)
Theorem empty_range_no_op
    (net : Net RawKline) (start_date end_date : Z) (fuel : nat) :
  (end_date <= start_date ->
   Klines.fetch_historical_klines net start_date end_date None fuel
   = Returned None
       (mkWalker [] (Some start_date) 0%nat None
                 [LogNoData; LogFresh start_date]))
  /\ (forall existing c,
         current_start (Klines.resume start_date (Some existing)) = Some c ->
         end_date <= c ->
         let saved := combine open_time [existing] in
         Klines.fetch_historical_klines net start_date end_date
                                        (Some existing) fuel
         = Returned (Some saved)
             (mkWalker [existing] (Some c) 0%nat (Some saved)
                       [LogComplete (length saved); ToCsv saved;
                        LogFound (length existing)
                                 (column_max open_time existing)])
         /\ (increasing open_time existing -> saved = existing)).
Proof.
  split.
  - intros Hle. unfold Klines.fetch_historical_klines, Klines.loop.
    destruct fuel; simpl; (replace (start_date <? end_date) with false
      by (symmetry; apply Z.ltb_ge; exact Hle)); reflexivity.
  - intros existing c Hc Hle. cbv zeta. split.
    + unfold Klines.fetch_historical_klines, Klines.loop.
      simpl in Hc.
      destruct fuel; simpl; rewrite Hc; simpl;
        (replace (c <? end_date) with false
          by (symmetry; apply Z.ltb_ge; exact Hle)); reflexivity.
    + intros [Hs _]. apply combine_dataset, keys_strict.
      apply Sorted_StronglySorted; [|exact Hs].
      intros x y z; apply Z.lt_trans.
Qed.

(** An empty range without a file, and a resume whose cursor (latest bar at
    7, so 8) is not before [end_date]. *)
Lemma empty_range_no_op_witness :
  Klines.fetch_historical_klines two_bars_net 10 10 None 5
  = Returned None (mkWalker [] (Some 10) 0%nat None [LogNoData; LogFresh 10])
  /\ run_state (Klines.fetch_historical_klines two_bars_net 0 8
                  (Some [bar_at 0 1%Q; bar_at 7 1%Q]) 5)
     = mkWalker [[bar_at 0 1%Q; bar_at 7 1%Q]] (Some 8) 0%nat
                (Some [bar_at 0 1%Q; bar_at 7 1%Q])
                [LogComplete 2; ToCsv [bar_at 0 1%Q; bar_at 7 1%Q];
                 LogFound 2 (Some 7)].
Proof.
  split.
  - apply (proj1 (empty_range_no_op two_bars_net 10 10 5)). lia.
  - destruct (proj2 (empty_range_no_op two_bars_net 0 8 5)
                [bar_at 0 1%Q; bar_at 7 1%Q] 8 eq_refl ltac:(lia)) as [E _].
    rewrite E. reflexivity.
Defined.

(** ** C2: where the cursor comes from *)

Lemma column_max_is_max (R : Type) (key : R -> Z) (df : list R) (m : Z) :
  is_max key df m <-> column_max key df = Some m.
Proof.
  split.
  - intros [Hat Hub]. apply column_max_unique; assumption.
  - intros H. split.
    + apply column_max_attained; assumption.
    + apply column_max_upper; assumption.
Qed.

(** C2.  At resume, with a file whose latest [open_time] is [m] the cursor
    is [m] + 1 ms and the buffer holds the file's rows as its only frame;
    without a file the cursor is the caller's [start_date] and the buffer is
    empty.  After an iteration that fetched a page with at least one row,
    the cursor is the page's latest [open_time] + 1 ms. *)
Theorem cursor_derivation
    (net : Net RawKline) (start_date end_date : Z) :
  (forall existing m,
      is_max open_time existing m ->
      current_start (Klines.resume start_date (Some existing)) = Some (m + 1)
      /\ all_data (Klines.resume start_date (Some existing)) = [existing])
  /\ (current_start (Klines.resume start_date None) = Some start_date
      /\ all_data (Klines.resume start_date None) = [])
  /\ (forall w c x raw m,
         current_start w = Some c ->
         net (requests_made (trace w)) c end_date = JsonArray (x :: raw) ->
         is_max open_time (map kline_of_raw (x :: raw)) m ->
         current_start (flow_state (Klines.body net end_date w))
         = Some (m + 1)).
Proof.
  split; [|split].
  - intros existing m Hm. apply column_max_is_max in Hm.
    simpl. rewrite Hm. split; reflexivity.
  - split; reflexivity.
  - intros w c x raw m Hc Hnet Hm. apply column_max_is_max in Hm.
    rewrite klines_body_is_walker.
    rewrite (walker_body_page kline_of_raw open_time net end_date w Hc Hnet).
    rewrite flow_state_if, page_step_cursor, Hm. reflexivity.
Qed.

(** A file whose latest bar is at 7 resumes at 8; a page with bars at 0 and
    5 moves the cursor to 6. *)
Lemma cursor_derivation_witness :
  current_start (Klines.resume 0 (Some [bar_at 7 1%Q; bar_at 0 1%Q]))
  = Some 8
  /\ current_start
       (flow_state (Klines.body two_bars_net 10 (Klines.resume 0 None)))
     = Some 6.
Proof.
  destruct (cursor_derivation two_bars_net 0 10) as (Hresume & _ & Hpage).
  split.
  - apply (Hresume [bar_at 7 1%Q; bar_at 0 1%Q] 7).
    split.
    + exists (bar_at 7 1%Q). split; [left|]; reflexivity.
    + intros r [<-|[<-|[]]]; simpl; lia.
  - apply (Hpage (Klines.resume 0 None) 0 (raw_kline_at 0 2%Q)
                 [raw_kline_at 5 2%Q] 5); try reflexivity.
    split.
    + exists (bar_at 5 2%Q). split; [right; left|]; reflexivity.
    + intros r [<-|[<-|[]]]; simpl; lia.
Defined.

(** ** C5: a short page ends the walk *)

Section ShortPage.
Variables Raw R : Type.
Variable conv : Raw -> R.
Variable key : R -> Z.
Variable net : Net Raw.
Variable end_date : Z.

Lemma short_page_finishes (w : Walker R) (c : Z) (x : Raw)
    (raw : list Raw) (fuel : nat) :
  current_start w = Some c -> c < end_date ->
  net (requests_made (trace w)) c end_date = JsonArray (x :: raw) ->
  (length (x :: raw) < 1000)%nat ->
  walker_loop key (page_source conv net) end_date (S fuel) w
  = Finished (page_step key end_date w c (map conv (x :: raw))).
Proof.
  intros Hc Hlt Hnet Hshort. unfold walker_loop, while, walker_cond.
  rewrite Hc. simpl lt_instant.
  apply Z.ltb_lt in Hlt. rewrite Hlt.
  rewrite (walker_body_page conv key net end_date w Hc Hnet).
  apply Nat.ltb_lt in Hshort. rewrite Hshort. reflexivity.
Qed.
End ShortPage.

(** C5.  When the page fetched at a cursor before [end_date] has at least
    one and fewer than 1000 rows, the loop is finished as soon as that page
    is processed: the page is appended, the cursor moved past its latest
    row, a checkpoint written if the buffer length asks for one, and exactly
    one request has been sent.  Nothing is required of the new cursor: it
    may still be before [end_date]. *)
Theorem short_page_ends_walk
    (netK : Net RawKline) (netF : Net RawFunding) (end_date : Z)
    (fuel : nat) :
  (forall w c x raw,
      current_start w = Some c -> c < end_date ->
      netK (requests_made (trace w)) c end_date = JsonArray (x :: raw) ->
      (length (x :: raw) < 1000)%nat ->
      exists w',
        Klines.loop netK end_date (S fuel) w = Finished w'
        /\ all_data w' = all_data w ++ [map kline_of_raw (x :: raw)]
        /\ current_start w'
           = add_ms (column_max open_time (map kline_of_raw (x :: raw)))
        /\ requests_made (trace w') = S (requests_made (trace w))
        /\ just_checkpointed (trace w')
           = (length (all_data w') mod 10 =? 0)%nat)
  /\ (forall w c x raw,
      current_start w = Some c -> c < end_date ->
      netF (requests_made (trace w)) c end_date = JsonArray (x :: raw) ->
      (length (x :: raw) < 1000)%nat ->
      exists w',
        Funding.loop netF end_date (S fuel) w = Finished w'
        /\ all_data w' = all_data w ++ [map funding_of_raw (x :: raw)]
        /\ current_start w'
           = add_ms (column_max fundingTime (map funding_of_raw (x :: raw)))
        /\ requests_made (trace w') = S (requests_made (trace w))
        /\ just_checkpointed (trace w')
           = (length (all_data w') mod 10 =? 0)%nat).
Proof.
  split; intros w c x raw Hc Hlt Hnet Hshort; eexists.
  - rewrite klines_loop_is_walker.
    split; [apply short_page_finishes; eassumption|].
    rewrite page_step_all_data, page_step_cursor, page_step_requests,
      page_step_just_checkpointed. auto.
  - rewrite funding_loop_is_walker.
    split; [apply short_page_finishes; eassumption|].
    rewrite page_step_all_data, page_step_cursor, page_step_requests,
      page_step_just_checkpointed. auto.
Qed.

(** A page of two bars ends the walk with the cursor at 6, far before an
    [end_date] of 600000, although the provider would send more. *)
Lemma short_page_ends_walk_witness :
  exists w',
    Klines.loop two_bars_net 600000 50 (Klines.resume 0 None) = Finished w'
    /\ current_start w' = Some 6
    /\ requests_made (trace w') = 1%nat.
Proof.
  destruct (proj1 (short_page_ends_walk two_bars_net two_rates_net 600000 49)
              (Klines.resume 0 None) 0 (raw_kline_at 0 2%Q)
              [raw_kline_at 5 2%Q] eq_refl ltac:(lia) eq_refl
              ltac:(simpl; lia))
    as (w' & Hloop & _ & Hcur & Hreq & _).
  exists w'. split; [exact Hloop|]. split; [exact Hcur|exact Hreq].
Defined.

(** ** C4: when a checkpoint is written *)

Section PagesFetched.
Variables Raw R : Type.
Variable conv : Raw -> R.
Variable key : R -> Z.
Variable net : Net Raw.
Variable end_date : Z.

Let fetch := page_source conv net.

Lemma page_step_pages_fetched (w : Walker R) c page :
  pages_fetched (trace (page_step key end_date w c page))
  = S (pages_fetched (trace w)).
Proof.
  rewrite page_step_trace.
  destruct (_ =? 0)%nat; reflexivity.
Qed.

Lemma stop_step_pages_fetched (w : Walker R) c failed :
  pages_fetched (trace (stop_step end_date w c failed))
  = pages_fetched (trace w).
Proof. destruct failed; reflexivity. Qed.

(** The buffer holds the initial frames and one frame per fetched page. *)
Lemma loop_buffer_length (start_date : Z) (file : option (list R))
    (fuel : nat) :
  let w := state_of (walker_loop key fetch end_date fuel
                       (walker_resume key start_date file)) in
  length (all_data w)
  = (length (initial_frames file) + pages_fetched (trace w))%nat.
Proof.
  cbv zeta. unfold walker_loop.
  apply (while_invariant (walker_cond end_date)
           (walker_body key fetch end_date)
           (fun w => length (all_data w)
                     = (length (initial_frames file)
                        + pages_fetched (trace w))%nat)).
  - intros w Hinv Hc. apply (body_state conv key net); [exact Hc| |].
    + intros c x raw _ _ _.
      rewrite page_step_all_data, page_step_pages_fetched, length_app.
      simpl. lia.
    + intros c failed _ _.
      rewrite stop_step_pages_fetched. exact Hinv.
  - destruct file; reflexivity.
Qed.

(** What an iteration that fetches a page does to the count of pages
    since the last checkpoint. *)
Lemma body_page_checkpoint (w : Walker R) (c : Z) (x : Raw)
    (raw : list Raw) :
  current_start w = Some c ->
  net (requests_made (trace w)) c end_date = JsonArray (x :: raw) ->
  let w' := flow_state (walker_body key fetch end_date w) in
  just_checkpointed (trace w')
  = (S (length (all_data w)) mod 10 =? 0)%nat
  /\ pages_since_checkpoint (trace w')
     = (if just_checkpointed (trace w') then 0
        else S (pages_since_checkpoint (trace w)))%nat.
Proof.
  intros Hc Hnet. cbv zeta. unfold fetch.
  rewrite (walker_body_page conv key net end_date w Hc Hnet).
  rewrite flow_state_if, page_step_just_checkpointed,
    page_step_pages_since, length_app.
  simpl length. rewrite Nat.add_1_r. auto.
Qed.
End PagesFetched.

(** C4 fails as stated: on a resume the existing dataset is one frame of the
    buffer, so the first checkpoint is written when nine pages, not ten,
    have been fetched since the file was last written. *)
Lemma resume_checkpoints_after_nine_pages :
  let run fuel :=
    run_state (Klines.fetch_historical_klines full_page_net 0 1000000
                 (Some [bar_at 0 1%Q]) fuel) in
  pages_since_checkpoint (trace (run 8%nat)) = 8%nat
  /\ pages_fetched (trace (run 9%nat)) = 9%nat
  /\ just_checkpointed (trace (run 9%nat)) = true
  /\ pages_since_checkpoint (trace (run 9%nat)) = 0%nat.
Proof. cbv zeta. repeat split; lazy; reflexivity. Qed.

(** C4, amended.  At every point of the paging loop of every run, fresh or
    resumed:
    - at most 9 pages have been fetched since the file was last written;
    - the buffer holds one frame per page fetched in this run, plus one for
      the existing dataset on a resume;
    - an iteration that fetches a page writes a checkpoint exactly when the
      buffer, that page included, holds a multiple of 10 frames, and the
      count of pages since the last checkpoint then returns to 0, and
      otherwise grows by one;
    - on a fresh start this is exactly when that count reaches 10. *)
Theorem checkpoint_rule
    (net : Net RawKline) (start_date end_date : Z)
    (file : option (list BarRecord)) (fuel : nat) :
  let w := state_of (Klines.loop net end_date fuel
                       (Klines.resume start_date file)) in
  (pages_since_checkpoint (trace w) <= 9)%nat
  /\ length (all_data w)
     = (length (initial_frames file) + pages_fetched (trace w))%nat
  /\ forall c x raw,
       current_start w = Some c ->
       net (requests_made (trace w)) c end_date = JsonArray (x :: raw) ->
       let w' := flow_state (Klines.body net end_date w) in
       just_checkpointed (trace w')
       = (S (length (all_data w)) mod 10 =? 0)%nat
       /\ pages_since_checkpoint (trace w')
          = (if just_checkpointed (trace w') then 0
             else S (pages_since_checkpoint (trace w)))%nat
       /\ (file = None ->
           just_checkpointed (trace w')
           = (S (pages_since_checkpoint (trace w)) =? 10)%nat).
Proof.
  cbv zeta. rewrite klines_loop_is_walker.
  pose proof (loop_pages_since kline_of_raw open_time net end_date
                start_date file fuel) as [Hle Heq].
  pose proof (loop_buffer_length kline_of_raw open_time net end_date
                start_date file fuel) as Hlen.
  cbv zeta in Hle, Heq, Hlen.
  unfold walker_resume in *. fold (Klines.resume start_date file) in *.
  set (w := state_of _) in *.
  split; [|split; [exact Hlen|]].
  - pose proof (Nat.mod_upper_bound (length (all_data w)) 10). lia.
  - intros c x raw Hc Hnet. rewrite klines_body_is_walker.
    destruct (body_page_checkpoint kline_of_raw open_time net end_date
                w Hc Hnet) as [Hjc Hps].
    split; [exact Hjc|]. split; [exact Hps|].
    intros Hfile. rewrite Hjc, (Heq Hfile).
    pose proof (Nat.mod_upper_bound (length (all_data w)) 10).
    pose proof (Nat.mod_upper_bound (S (length (all_data w))) 10).
    pose proof (Nat.div_mod_eq (length (all_data w)) 10).
    pose proof (Nat.div_mod_eq (S (length (all_data w))) 10).
    destruct (S (length (all_data w)) mod 10 =? 0)%nat eqn:E1;
      destruct (S (length (all_data w) mod 10) =? 10)%nat eqn:E2;
      try reflexivity.
    + apply Nat.eqb_eq in E1. apply Nat.eqb_neq in E2. lia.
    + apply Nat.eqb_neq in E1. apply Nat.eqb_eq in E2. lia.
Qed.

(** On a fresh start against a provider with full pages, nine pages are
    unsaved after nine iterations and the tenth writes the checkpoint. *)
Lemma checkpoint_rule_witness :
  let w := state_of (Klines.loop full_page_net 1000000 9
                       (Klines.resume 0 None)) in
  pages_since_checkpoint (trace w) = 9%nat
  /\ just_checkpointed
       (trace (flow_state (Klines.body full_page_net 1000000 w)))
     = true.
Proof.
  cbv zeta.
  destruct (checkpoint_rule full_page_net 0 1000000 None 9)
    as (_ & _ & Hstep).
  assert (Hps : pages_since_checkpoint
                  (trace (state_of (Klines.loop full_page_net 1000000 9
                                      (Klines.resume 0 None)))) = 9%nat)
    by (lazy; reflexivity).
  split; [exact Hps|].
  destruct (Hstep 9000 (raw_kline_at 9000 0%Q)
              (map (fun t => raw_kline_at t 0%Q) (instants_from 9001 999)))
    as (_ & _ & Hfresh).
  - lazy; reflexivity.
  - lazy; reflexivity.
  - rewrite (Hfresh eq_refl), Hps. reflexivity.
Defined.

(** ** C8: progress of the cursor and termination *)

Section Progress.
Variables Raw R : Type.
Variable conv : Raw -> R.
Variable key : R -> Z.
Variable net : Net Raw.
Variable end_date : Z.
Hypothesis Hnet : honours_start conv key net.

Let fetch := page_source conv net.
Let body := walker_body key fetch end_date.
Let cond := walker_cond (R:=R) end_date.

Lemma continue_advances (w w' : Walker R) (c : Z) :
  current_start w = Some c -> c < end_date ->
  body w = Continue w' ->
  exists c', current_start w' = Some c' /\ c < c'.
Proof.
  intros Hc Hlt Hb.
  assert (Hcond : cond w = true).
  { unfold cond, walker_cond. rewrite Hc. apply Z.ltb_lt; exact Hlt. }
  destruct (@walker_body_cases _ _ conv key net end_date w Hcond)
    as (c0 & Hc0 & _ & [(x & raw & Hreply & Hb')|(_ & failed & Hb')]);
    fold fetch in Hb'; fold body in Hb'; rewrite Hb' in Hb;
    [|discriminate].
  rewrite Hc in Hc0. injection Hc0 as <-.
  assert (w' = page_step key end_date w c (map conv (x :: raw))) as ->.
  { destruct (length (x :: raw) <? 1000)%nat; congruence. }
  rewrite page_step_cursor.
  destruct (Hnet Hreply) as (r & Hr & Hle).
  destruct (column_max key (map conv (x :: raw))) as [m|] eqn:E.
  - exists (m + 1). split; [reflexivity|].
    pose proof (column_max_upper _ _ E (conv r) (in_map conv _ _ Hr)). lia.
  - apply column_max_nil in E. discriminate.
Qed.

Lemma loop_finishes (fuel : nat) (w : Walker R) :
  (iterations_bound end_date (current_start w) <= fuel)%nat ->
  exists w', walker_loop key fetch end_date fuel w = Finished w'.
Proof.
  intros Hfuel. unfold walker_loop.
  apply (while_terminates cond body (fun _ => True)
           (fun w => iterations_bound end_date (current_start w)));
    auto.
  - intros s _. unfold cond, walker_cond, lt_instant, iterations_bound.
    destruct (current_start s); [|discriminate].
    intros H. apply Z.ltb_lt in H. lia.
  - intros s s' _ Hc Hb. unfold cond, walker_cond, lt_instant in Hc.
    destruct (current_start s) as [c|] eqn:Hcur; [|discriminate].
    apply Z.ltb_lt in Hc.
    destruct (continue_advances s Hcur Hc Hb) as (c' & -> & Hlt).
    unfold iterations_bound. lia.
Qed.

Lemma walker_returns (start_date : Z) (file : option (list R))
    (fuel : nat) :
  (iterations_bound end_date
     (current_start (walker_resume key start_date file)) <= fuel)%nat ->
  exists ret w,
    incremental_walker key fetch start_date end_date file fuel
    = Returned ret w.
Proof.
  intros Hfuel. unfold incremental_walker.
  destruct (loop_finishes _ Hfuel) as (w' & ->).
  unfold walker_done. destruct (truthy (all_data w')); eauto.
Qed.
End Progress.

Section StalePages.
Let page := map (fun t => kline_of_raw (raw_kline_at t 0%Q))
                (instants_from 0 1000).

Lemma stale_body (w : Walker BarRecord) (c : Z) :
  current_start w = Some c ->
  Klines.body stale_page_net 10000 w
  = Continue (page_step open_time 10000 w c page).
Proof.
  intros Hc. rewrite klines_body_is_walker.
  rewrite (walker_body_page kline_of_raw open_time stale_page_net 10000 w
             (x := raw_kline_at 0 0%Q)
             (raw := map (fun t => raw_kline_at t 0%Q)
                         (instants_from 1 999)) Hc eq_refl).
  reflexivity.
Qed.

Lemma stale_cursor (w : Walker BarRecord) (c : Z) :
  current_start (page_step open_time 10000 w c page) = Some 1000.
Proof. rewrite page_step_cursor. reflexivity. Qed.

Lemma stale_loop (fuel : nat) :
  forall w c, current_start w = Some c -> c < 10000 ->
              exists w', Klines.loop stale_page_net 10000 fuel w
                         = OutOfFuel w'.
Proof.
  induction fuel as [|fuel IH]; intros w c Hc Hlt;
    unfold Klines.loop; simpl; rewrite Hc; simpl;
    apply Z.ltb_lt in Hlt; rewrite Hlt.
  - eauto.
  - rewrite (stale_body w Hc).
    apply (IH _ 1000); [apply stale_cursor|lia].
Qed.
End StalePages.




(** ** C7: running the same fetch twice *)

Section StoreRun.
Variables Raw R : Type.
Variable conv : Raw -> R.
Variable key : R -> Z.
Variable time : Raw -> Z.
Variable store : list Raw.
Variable end_date : Z.
Hypothesis Htime : forall r, key (conv r) = time r.

Let net := store_net time store.
Let fetch := page_source conv net.
Let body := walker_body key fetch end_date.
Let cond := walker_cond (R:=R) end_date.

Lemma firstn_incl (A : Type) (n : nat) (l : list A) (x : A) :
  In x (firstn n l) -> In x l.
Proof.
  intros H. rewrite <- (firstn_skipn n l). apply in_or_app. auto.
Qed.

Lemma firstn_short (A : Type) (n : nat) (l : list A) :
  (length (firstn n l) < n)%nat -> firstn n l = l.
Proof.
  rewrite length_firstn. intros H. apply firstn_all2. lia.
Qed.

Lemma filter_none (A : Type) (p : A -> bool) (l : list A) :
  (forall x, In x l -> p x = false) -> filter p l = [].
Proof.
  induction l as [|x rest IH]; simpl; intros H; [reflexivity|].
  rewrite (H x) by auto. apply IH. auto.
Qed.

Lemma serve_in_range (c e : Z) (r : Raw) :
  In r (serve time store c e) -> c <= time r <= e.
Proof.
  unfold serve. intros H. apply firstn_incl, filter_In in H as [_ H].
  unfold in_range in H. apply andb_true_iff in H as [H1 H2].
  apply Z.leb_le in H1. apply Z.leb_le in H2. lia.
Qed.

Lemma store_honours_start : honours_start conv key net.
Proof.
  intros i c e x raw H. unfold net, store_net in H. injection H as H.
  exists x. split; [left; reflexivity|].
  rewrite Htime. apply (serve_in_range c e). rewrite H. left; reflexivity.
Qed.

(** After a short page nothing is left between the new cursor and
    [endTime]. *)
Lemma serve_exhausted (c e m : Z) :
  (length (serve time store c e) < 1000)%nat ->
  c <= m + 1 ->
  (forall r, In r (serve time store c e) -> time r <= m) ->
  serve time store (m + 1) e = [].
Proof.
  intros Hshort Hle Hub. unfold serve in *.
  rewrite (@firstn_short _ _ _ Hshort) in Hub.
  rewrite filter_none; [reflexivity|].
  intros r Hr. unfold in_range.
  destruct (m + 1 <=? time r) eqn:E1; [|reflexivity].
  destruct (time r <=? e) eqn:E2; [|reflexivity].
  apply Z.leb_le in E1. apply Z.leb_le in E2.
  assert (Hin : In r (filter (fun r => in_range c e (time r)) store)).
  { apply filter_In. split; [assumption|]. unfold in_range.
    apply andb_true_iff. split; apply Z.leb_le; lia. }
  specialize (Hub r Hin). lia.
Qed.

Lemma column_max_app_later (l1 l2 : list R) (m : Z) :
  column_max key l2 = Some m ->
  (forall r, In r l1 -> key r <= m) ->
  column_max key (l1 ++ l2) = Some m.
Proof.
  intros Hm Hub. apply column_max_unique.
  - destruct (column_max_attained _ _ Hm) as (r & Hr & Hk).
    exists r. split; [apply in_or_app; auto|assumption].
  - intros r Hr. apply in_app_or in Hr as [Hr|Hr]; [auto|].
    apply (column_max_upper _ _ Hm); assumption.
Qed.

Lemma page_cursor_past_buffer (w : Walker R) (c : Z) (x : Raw)
    (raw : list Raw) :
  cursor_past_buffer key w -> current_start w = Some c ->
  serve time store c end_date = x :: raw ->
  cursor_past_buffer key (page_step key end_date w c (map conv (x :: raw))).
Proof.
  intros Hinv Hc Hserve _. unfold cursor_past_buffer in Hinv.
  rewrite page_step_cursor, page_step_all_data, concat_app.
  simpl concat. rewrite app_nil_r.
  destruct (column_max key (map conv (x :: raw))) as [m|] eqn:Em;
    [|apply column_max_nil in Em; discriminate].
  rewrite (column_max_app_later _ _ Em); [reflexivity|].
  intros r Hr.
  assert (Hm : c <= m).
  { pose proof (column_max_upper _ _ Em (conv x)
                  (in_map conv _ _ (in_eq x raw))) as Hx.
    rewrite Htime in Hx.
    pose proof (serve_in_range c end_date x) as Hx'.
    rewrite Hserve in Hx'. specialize (Hx' (in_eq x raw)). lia. }
  destruct (all_data w) as [|f fs] eqn:Eall; [simpl in Hr; contradiction|].
  rewrite Hinv in Hc by discriminate.
  destruct (column_max key (concat (f :: fs))) as [m0|] eqn:E0;
    [|discriminate].
  injection Hc as Hc.
  pose proof (column_max_upper _ _ E0 r Hr). lia.
Qed.

Lemma body_cursor_past_buffer (w : Walker R) :
  cursor_past_buffer key w -> cond w = true ->
  cursor_past_buffer key (flow_state (body w)).
Proof.
  intros Hinv Hc. apply (body_state conv key net); [exact Hc| |].
  - intros c x raw Hcur _ Hreply. injection Hreply as Hreply.
    apply page_cursor_past_buffer; assumption.
  - intros c failed _ _. exact Hinv.
Qed.

Lemma break_exhausted (w w' : Walker R) :
  cond w = true -> body w = Break w' -> exhausted time store end_date w'.
Proof.
  intros Hc Hb.
  destruct (@walker_body_cases _ _ conv key net end_date w Hc)
    as (c & Hcur & Hlt & [(x & raw & Hreply & Hb')|(Hno & failed & Hb')]);
    fold fetch in Hb'; fold body in Hb'; rewrite Hb' in Hb.
  - injection Hreply as Hreply.
    destruct (length (x :: raw) <? 1000)%nat eqn:Hshort; [|discriminate].
    injection Hb as <-. apply Nat.ltb_lt in Hshort.
    intros c' Hc' _. rewrite page_step_cursor in Hc'.
    change (conv x :: map conv raw) with (map conv (x :: raw)) in Hc'.
    destruct (column_max key (map conv (x :: raw))) as [m|] eqn:Em;
      simpl in Hc'; [|discriminate].
    injection Hc' as <-.
    assert (Hub : forall r, In r (serve time store c end_date) ->
                            time r <= m).
    { intros r Hr. rewrite <- Htime.
      apply (column_max_upper _ _ Em). apply in_map.
      rewrite <- Hreply. exact Hr. }
    apply serve_exhausted with (c := c).
    + rewrite Hreply. exact Hshort.
    + pose proof (Hub x) as Hx. rewrite Hreply in Hx.
      specialize (Hx (in_eq x raw)).
      pose proof (serve_in_range c end_date x) as Hx'.
      rewrite Hreply in Hx'. specialize (Hx' (in_eq x raw)). lia.
    + exact Hub.
  - injection Hb as <-. intros c' Hc' _.
    change (current_start w = Some c') in Hc'.
    rewrite Hcur in Hc'. injection Hc' as <-.
    destruct (serve time store c end_date) as [|x raw] eqn:E;
      [reflexivity|].
    exfalso. apply (Hno x raw). unfold net, store_net. rewrite E.
    reflexivity.
Qed.

Lemma finished_exhausted (fuel : nat) (w w' : Walker R) :
  walker_loop key fetch end_date fuel w = Finished w' -> exhausted time store end_date w'.
Proof.
  unfold walker_loop.
  apply (while_exit cond body (fun _ => True) (exhausted time store end_date)); auto.
  - intros s _ Hc c Hcur Hlt. unfold cond, walker_cond in Hc.
    rewrite Hcur in Hc. simpl in Hc. apply Z.ltb_ge in Hc. lia.
  - intros s s' _. apply break_exhausted.
Qed.

(** With nothing left to fetch the loop ends at once or after one
    request, and leaves buffer and cursor as they were. *)
Lemma exhausted_loop (fuel : nat) (w : Walker R) :
  exhausted time store end_date w ->
  exists w', walker_loop key fetch end_date (S fuel) w = Finished w'
             /\ all_data w' = all_data w.
Proof.
  intros Hex. unfold walker_loop, while.
  fold (while (walker_cond end_date) (walker_body key fetch end_date)).
  destruct (walker_cond end_date w) eqn:Hc; [|eauto].
  destruct (@walker_body_cases _ _ conv key net end_date w Hc)
    as (c & Hcur & Hlt & [(x & raw & Hreply & _)|(_ & failed & Hb)]).
  - exfalso. unfold net, store_net in Hreply.
    rewrite (Hex c Hcur Hlt) in Hreply. discriminate.
  - fold fetch in Hb. rewrite Hb. eauto.
Qed.
End StoreRun.

Section TwoRuns.
Variables Raw R : Type.
Variable conv : Raw -> R.
Variable key : R -> Z.
Variable time : Raw -> Z.
Variable store : list Raw.
Variable end_date : Z.
Hypothesis Htime : forall r, key (conv r) = time r.

Let net := store_net time store.
Let fetch := page_source conv net.

Lemma loop_cursor_past_buffer (start_date : Z) (file : option (list R))
    (fuel : nat) :
  cursor_past_buffer key
    (state_of (walker_loop key fetch end_date fuel
                 (walker_resume key start_date file))).
Proof.
  unfold walker_loop. apply while_invariant.
  - intros w. apply body_cursor_past_buffer. exact Htime.
  - destruct file as [existing|]; intros H; simpl.
    + rewrite app_nil_r. reflexivity.
    + contradiction.
Qed.

Lemma loop_no_frames (start_date : Z) (file : option (list R))
    (fuel : nat) :
  let w := state_of (walker_loop key fetch end_date fuel
                       (walker_resume key start_date file)) in
  all_data w = [] -> file = None /\ disk w = None.
Proof.
  cbv zeta. intros Hnil. split.
  - destruct (@loop_snapshots _ _ conv key net end_date _ fuel _
                (resume_snapshots key start_date file))
      as [(pages & Hall) _].
    fold fetch in Hall. rewrite Hnil in Hall.
    destruct file; [discriminate|reflexivity].
  - revert Hnil. unfold walker_loop.
    apply (while_invariant (walker_cond end_date)
             (walker_body key fetch end_date)
             (fun w => all_data w = [] -> disk w = None)).
    + intros w Hinv Hc. apply (body_state conv key net); [exact Hc| |].
      * intros c x raw _ _ _. rewrite page_step_all_data.
        intros H. apply app_eq_nil in H as [_ H]. discriminate.
      * intros c failed _ _. exact Hinv.
    + destruct file; simpl; [discriminate|reflexivity].
Qed.

(** Against a provider serving a fixed store, a second run of the same
    fetch over the file the first run left returns the same frame and
    leaves the file as it was. *)
Lemma walker_twice (start_date : Z) (file : option (list R))
    (fuel : nat) :
  (S (iterations_bound end_date
        (current_start (walker_resume key start_date file))) <= fuel)%nat ->
  exists ret w1 w2,
    incremental_walker key fetch start_date end_date file fuel
    = Returned ret w1
    /\ incremental_walker key fetch start_date end_date (disk w1) fuel
       = Returned ret w2
    /\ disk w2 = disk w1
    /\ forall rows, ret = Some rows ->
                    increasing key rows /\ disk w1 = Some rows.
Proof.
  intros Hfuel.
  pose proof (loop_cursor_past_buffer start_date file fuel) as Hpast.
  pose proof (loop_no_frames start_date file fuel) as Hnone.
  cbv zeta in Hnone.
  assert (Hfin : exists w, walker_loop key fetch end_date fuel
                             (walker_resume key start_date file)
                           = Finished w).
  { apply loop_finishes; [apply store_honours_start; exact Htime|lia]. }
  destruct Hfin as (w & Hloop).
  pose proof (@finished_exhausted _ _ conv key time store end_date Htime
                fuel _ _ Hloop) as Hex.
  unfold incremental_walker at 1.
  rewrite Hloop in *. simpl state_of in *.
  unfold cursor_past_buffer in Hpast.
  unfold walker_done.
  destruct (all_data w) as [|f fs] eqn:Hall; simpl truthy; cbv iota.
  - destruct (Hnone eq_refl) as [-> Hdisk].
    exists None, (log LogNoData w), (log LogNoData w).
    split; [reflexivity|]. simpl disk. rewrite Hdisk.
    split; [|split; [reflexivity|discriminate]].
    unfold incremental_walker. rewrite Hloop.
    unfold walker_done. rewrite Hall. reflexivity.
  - set (saved := combine key (f :: fs)).
    destruct fuel as [|fuel']; [lia|].
    assert (Hex2 : exhausted time store end_date
                     (walker_resume key start_date (Some saved))).
    { intros c Hc. apply Hex. rewrite Hpast by discriminate.
      simpl in Hc. unfold saved in Hc.
      rewrite column_max_combine in Hc. exact Hc. }
    destruct (@exhausted_loop _ _ conv key time store end_date fuel' _
                Hex2) as (w2 & Hloop2 & Hall2).
    fold net in Hloop2. fold fetch in Hloop2.
    exists (Some saved),
      (log (LogComplete (length saved)) (to_csv saved w)),
      (log (LogComplete (length saved)) (to_csv saved w2)).
    split; [reflexivity|]. simpl disk.
    split; [|split; [reflexivity|]].
    + unfold incremental_walker. rewrite Hloop2.
      unfold walker_done. rewrite Hall2. simpl.
      unfold saved. rewrite combine_idempotent. reflexivity.
    + intros rows [= <-]. split; [apply combine_increasing|reflexivity].
Qed.
End TwoRuns.




(** ** C9: one walker, two record kinds *)

Section Erasure.
Variables Raw R : Type.
Variable conv : Raw -> R.
Variable key : R -> Z.
Variable net : Net Raw.
Variable end_date : Z.

Let idz := fun t : Z => t.
Let time := fun r : Raw => key (conv r).
Let netz := erase_net time net.

Lemma erase_column_max (df : list R) :
  column_max idz (map key df) = column_max key df.
Proof.
  induction df as [|r rest IH]; simpl; [reflexivity|].
  rewrite IH. reflexivity.
Qed.

Lemma erase_filter (k : Z) (df : list R) :
  map key (filter (fun x => negb (key x =? k)) df)
  = filter (fun t => negb (idz t =? k)) (map key df).
Proof.
  induction df as [|r rest IH]; simpl; [reflexivity|].
  unfold idz at 1. destruct (negb (key r =? k)); simpl; rewrite IH;
    reflexivity.
Qed.

Lemma erase_drop_duplicates (df : list R) :
  map key (drop_duplicates key df) = drop_duplicates idz (map key df).
Proof.
  induction df as [|r rest IH]; simpl; [reflexivity|].
  rewrite erase_filter, IH. reflexivity.
Qed.

Lemma erase_insert_row (r : R) (df : list R) :
  map key (insert_row key r df) = insert_row idz (key r) (map key df).
Proof.
  induction df as [|x rest IH]; simpl; [reflexivity|].
  unfold idz at 1 2. destruct (key r <=? key x); simpl; [reflexivity|].
  rewrite IH. reflexivity.
Qed.

Lemma erase_sort_values (df : list R) :
  map key (sort_values key df) = sort_values idz (map key df).
Proof.
  induction df as [|r rest IH]; simpl; [reflexivity|].
  rewrite erase_insert_row, IH. reflexivity.
Qed.

Lemma erase_combine (frames : list (list R)) :
  map key (combine key frames) = combine idz (map (map key) frames).
Proof.
  unfold combine.
  rewrite erase_sort_values, erase_drop_duplicates, concat_map.
  reflexivity.
Qed.

Lemma erase_requests_made (tr : list (Event R)) :
  requests_made (map (erase_event key) tr) = requests_made tr.
Proof.
  unfold requests_made.
  induction tr as [|e rest IH]; simpl; [reflexivity|].
  destruct e; simpl; rewrite IH; reflexivity.
Qed.

Lemma erase_checkpoint (w : Walker R) :
  erase_walker key (checkpoint key w)
  = checkpoint idz (erase_walker key w).
Proof.
  unfold checkpoint. simpl all_data. rewrite length_map.
  destruct (_ =? 0)%nat; [|reflexivity].
  unfold erase_walker, log, to_csv. simpl.
  rewrite <- erase_combine, length_map. reflexivity.
Qed.

Lemma erase_page_step (w : Walker R) (c : Z) (page : list R) :
  erase_walker key (page_step key end_date w c page)
  = page_step idz end_date (erase_walker key w) c (map key page).
Proof.
  unfold page_step.
  change (erase_walker key (log Sleep ?x))
    with (log Sleep (erase_walker key x)).
  rewrite erase_checkpoint. f_equal. f_equal.
  unfold append_page, erase_walker. simpl.
  rewrite map_app, erase_column_max, length_map. reflexivity.
Qed.

Lemma erase_stop_step (w : Walker R) (c : Z) (failed : bool) :
  erase_walker key (stop_step end_date w c failed)
  = stop_step end_date (erase_walker key w) c failed.
Proof. destruct failed; reflexivity. Qed.

(** One iteration, erased, is one iteration of the walker over
    instants. *)
Lemma erase_body (w : Walker R) :
  erase_flow key (walker_body key (page_source conv net) end_date w)
  = walker_body idz (page_source idz netz) end_date (erase_walker key w).
Proof.
  destruct (current_start w) as [c|] eqn:Hc.
  2:{ unfold walker_body. simpl current_start. rewrite Hc. reflexivity. }
  assert (Hc' : current_start (erase_walker key w) = Some c) by exact Hc.
  assert (Hreply :
            netz (requests_made (trace (erase_walker key w))) c end_date
            = erase_reply time (net (requests_made (trace w)) c end_date)).
  { unfold netz, erase_net. simpl trace. rewrite erase_requests_made.
    reflexivity. }
  destruct (net (requests_made (trace w)) c end_date) as [| | |raw] eqn:E.
  4: destruct raw as [|x raw].
  5:{ rewrite (walker_body_page conv key net end_date w Hc E).
      simpl erase_reply in Hreply.
      rewrite (walker_body_page idz idz netz end_date _ Hc' Hreply).
      change (time x :: map time raw) with (map time (x :: raw)).
      rewrite map_id, length_map.
      replace (map time (x :: raw)) with (map key (map conv (x :: raw)))
        by apply map_map.
      rewrite <- erase_page_step.
      destruct (_ <? 1000)%nat; reflexivity. }
  all: rewrite (walker_body_stop conv key net end_date w Hc)
    by (rewrite E; discriminate);
    rewrite (walker_body_stop idz idz netz end_date _ Hc')
      by (rewrite Hreply; discriminate);
    rewrite Hreply, E; simpl erase_flow; rewrite erase_stop_step;
    reflexivity.
Qed.

Lemma erase_loop (fuel : nat) :
  forall w,
    erase_outcome key
      (walker_loop key (page_source conv net) end_date fuel w)
    = walker_loop idz (page_source idz netz) end_date fuel
        (erase_walker key w).
Proof.
  unfold walker_loop.
  induction fuel as [|fuel IH]; intros w; simpl;
    change (walker_cond end_date (erase_walker key w))
      with (walker_cond end_date w);
    destruct (walker_cond end_date w); try reflexivity.
  rewrite <- erase_body.
  destruct (walker_body key (page_source conv net) end_date w);
    simpl; [apply IH|reflexivity].
Qed.

Lemma erase_done (w : Walker R) :
  erase_run key (walker_done key w)
  = walker_done idz (erase_walker key w).
Proof.
  unfold walker_done. simpl all_data.
  replace (truthy (map (map key) (all_data w))) with (truthy (all_data w))
    by (destruct (all_data w); reflexivity).
  destruct (truthy (all_data w)); [|reflexivity].
  unfold erase_run, erase_walker, log, to_csv. simpl.
  rewrite <- erase_combine, length_map. reflexivity.
Qed.

Lemma erase_resume (start_date : Z) (file : option (list R)) :
  erase_walker key (walker_resume key start_date file)
  = walker_resume idz start_date (option_map (map key) file).
Proof.
  destruct file as [existing|]; [|reflexivity].
  unfold walker_resume, erase_walker. simpl.
  rewrite erase_column_max, length_map. reflexivity.
Qed.

(** A run, erased, is the run of the walker over instants against the
    erased provider and file. *)
Lemma erase_walker_run (start_date : Z) (file : option (list R))
    (fuel : nat) :
  erase_run key
    (incremental_walker key (page_source conv net) start_date end_date
                        file fuel)
  = instant_walker netz start_date end_date (option_map (map key) file)
                   fuel.
Proof.
  unfold instant_walker, incremental_walker.
  fold idz. rewrite <- erase_resume, <- erase_loop.
  destruct (walker_loop key (page_source conv net) end_date fuel
              (walker_resume key start_date file)); simpl.
  - apply erase_done.
  - reflexivity.
Qed.
End Erasure.

Lemma instant_walker_ext (n1 n2 : Net Z) (start_date end_date : Z)
    (file : option (list Z)) (fuel : nat) :
  (forall i c e, n1 i c e = n2 i c e) ->
  instant_walker n1 start_date end_date file fuel
  = instant_walker n2 start_date end_date file fuel.
Proof.
  intros H. unfold instant_walker, incremental_walker, walker_loop.
  rewrite (while_ext (walker_cond end_date)
             (walker_body (fun t => t) (page_source (fun t => t) n1) end_date)
             (walker_body (fun t => t) (page_source (fun t => t) n2) end_date));
    [reflexivity|].
  intros w. unfold walker_body, page_source.
  destruct (current_start w); [|reflexivity].
  rewrite H. reflexivity.
Qed.

(** C9.  Each of the two functions is the Incremental Walker at its record
    kind: [fetch_historical_klines] is the walker with primary time
    [open_time] over the klines Page Source, [fetch_historical_funding_rates]
    the walker with primary time [fundingTime] over the funding Page Source.
    Hence, when the two providers answer alike up to the record schema
    (the same failures, the same primary times in every page) and the two
    files hold the same primary times, the two runs agree step for step once
    records are replaced by their primary times: the same requests, log
    lines, sleeps, times written at each checkpoint and at the final save,
    the same times returned or the same [None]. *)
Theorem walkers_are_one_algorithm
    (netK : Net RawKline) (netF : Net RawFunding)
    (start_date end_date : Z)
    (fileK : option (list BarRecord)) (fileF : option (list FundingRecord))
    (fuel : nat) :
  Klines.fetch_historical_klines netK start_date end_date fileK fuel
  = incremental_walker open_time (page_source kline_of_raw netK)
      start_date end_date fileK fuel
  /\ Funding.fetch_historical_funding_rates netF start_date end_date fileF
       fuel
     = incremental_walker fundingTime (page_source funding_of_raw netF)
         start_date end_date fileF fuel
  /\ ((forall i c e,
          erase_reply k_open_time (netK i c e)
          = erase_reply f_fundingTime (netF i c e)) ->
      option_map (map open_time) fileK = option_map (map fundingTime) fileF ->
      erase_run open_time
        (Klines.fetch_historical_klines netK start_date end_date fileK fuel)
      = erase_run fundingTime
          (Funding.fetch_historical_funding_rates netF start_date end_date
             fileF fuel)).
Proof.
  split; [apply klines_is_walker|]. split; [apply funding_is_walker|].
  intros Hnet Hfile.
  rewrite klines_is_walker, funding_is_walker, !erase_walker_run.
  rewrite Hfile. apply instant_walker_ext. exact Hnet.
Qed.

(** Bars and funding rates at the same instants, 0 and 5: the two runs
    erase to the same steps. *)
Lemma walkers_are_one_algorithm_witness :
  erase_run open_time
    (Klines.fetch_historical_klines two_bars_net 0 10 None 3)
  = erase_run fundingTime
      (Funding.fetch_historical_funding_rates two_rates_net 0 10 None 3).
Proof.
  apply (proj2 (proj2 (walkers_are_one_algorithm
                         two_bars_net two_rates_net 0 10 None None 3))).
  - intros i c e. reflexivity.
  - reflexivity.
Defined.

(** * Further properties of the walkers *)

Unset Implicit Arguments.

(** ** Reasoning along a run *)

Section Reach.
Variable S : Type.
Variable cond : S -> bool.
Variable body : S -> Flow S.

(** [P] holds at every loop head, [Q] wherever the loop stands or has
    stopped. *)
Lemma while_reach (P Q : S -> Prop) :
  (forall s s', P s -> cond s = true -> body s = Continue s' -> P s') ->
  (forall s, P s -> Q s) ->
  (forall s s', P s -> cond s = true -> body s = Break s' -> Q s') ->
  forall fuel s, P s -> Q (state_of (while cond body fuel s)).
Proof.
  intros Hcont Hweak Hbreak fuel; induction fuel as [|fuel IH];
    intros s Hs; simpl.
  - destruct (cond s); simpl; auto.
  - destruct (cond s) eqn:C; simpl; [|auto].
    destruct (body s) as [s'|s'] eqn:B; simpl.
    + apply IH. apply (Hcont s); assumption.
    + apply (Hbreak s); assumption.
Qed.
End Reach.

Section RunReach.
Variables Raw R : Type.
Variable conv : Raw -> R.
Variable key : R -> Z.
Variable net : Net Raw.
Variable end_date : Z.

Let fetch := page_source conv net.

Lemma loop_reach (P Q : Walker R -> Prop) :
  (forall w c x raw,
      P w -> current_start w = Some c -> c < end_date ->
      net (requests_made (trace w)) c end_date = JsonArray (x :: raw) ->
      P (page_step key end_date w c (map conv (x :: raw)))) ->
  (forall w, P w -> Q w) ->
  (forall w c failed,
      P w -> current_start w = Some c -> c < end_date ->
      Q (stop_step end_date w c failed)) ->
  forall fuel w,
    P w -> Q (state_of (walker_loop key fetch end_date fuel w)).
Proof.
  intros Hpage Hweak Hstop fuel w Hw. unfold walker_loop.
  apply (while_reach (Walker R) (walker_cond end_date)
           (walker_body key fetch end_date) P Q); try assumption.
  - intros s s' Hs Hc Hb.
    destruct (@walker_body_cases _ _ conv key net end_date s Hc)
      as (c & Hcur & Hlt & [(x & raw & Hreply & Hb')|(_ & failed & Hb')]);
      fold fetch in Hb'; rewrite Hb' in Hb; [|discriminate].
    destruct (length (x :: raw) <? 1000)%nat; [discriminate|].
    injection Hb as <-. eapply Hpage; eassumption.
  - intros s s' Hs Hc Hb.
    destruct (@walker_body_cases _ _ conv key net end_date s Hc)
      as (c & Hcur & Hlt & [(x & raw & Hreply & Hb')|(_ & failed & Hb')]);
      fold fetch in Hb'; rewrite Hb' in Hb.
    + destruct (length (x :: raw) <? 1000)%nat; [|discriminate].
      injection Hb as <-. apply Hweak. eapply Hpage; eassumption.
    + injection Hb as <-. apply Hstop; assumption.
Qed.

(** The same for a whole call, where [Q] must survive the events of the
    final save. *)
Lemma run_reach (P Q : Walker R -> Prop) (start_date : Z)
    (file : option (list R)) (fuel : nat) :
  P (walker_resume key start_date file) ->
  (forall w c x raw,
      P w -> current_start w = Some c -> c < end_date ->
      net (requests_made (trace w)) c end_date = JsonArray (x :: raw) ->
      P (page_step key end_date w c (map conv (x :: raw)))) ->
  (forall w, P w -> Q w) ->
  (forall w c failed,
      P w -> current_start w = Some c -> c < end_date ->
      Q (stop_step end_date w c failed)) ->
  (forall w, Q w -> Q (log LogNoData w)) ->
  (forall w,
      Q w -> Q (log (LogComplete (length (combine key (all_data w))))
                    (to_csv (combine key (all_data w)) w))) ->
  Q (run_state (incremental_walker key fetch start_date end_date file fuel)).
Proof.
  intros H0 Hpage Hweak Hstop Hnone Hsave.
  pose proof (loop_reach P Q Hpage Hweak Hstop fuel _ H0) as H.
  unfold incremental_walker.
  destruct (walker_loop key fetch end_date fuel
              (walker_resume key start_date file)) as [w|w]; simpl in *.
  - unfold walker_done. destruct (truthy (all_data w)); simpl; auto.
  - exact H.
Qed.
End RunReach.

(** ** Requests, sleeps and counters *)

Section TraceFacts.
Variables Raw R : Type.
Variable conv : Raw -> R.
Variable key : R -> Z.
Variable net : Net Raw.
Variable end_date : Z.

Let fetch := page_source conv net.

Lemma paced_after_weaken (tr : list (Event R)) :
  paced_after true tr = true -> paced_after false tr = true.
Proof.
  induction tr as [|e rest IH]; simpl; [reflexivity|].
  destruct e; auto. discriminate.
Qed.

Lemma run_paced (start_date : Z) (file : option (list R)) (fuel : nat) :
  paced (trace (run_state
                  (incremental_walker key fetch start_date end_date file fuel)))
  = true.
Proof.
  apply (run_reach Raw R conv key net end_date
           (fun w => paced_after true (trace w) = true)
           (fun w => paced (trace w) = true)).
  - destruct file; reflexivity.
  - intros w c x raw Hw _ _ _. rewrite page_step_trace.
    destruct (_ =? 0)%nat; simpl; exact Hw.
  - intros w Hw. apply paced_after_weaken. exact Hw.
  - intros w c failed Hw _ _. rewrite stop_step_trace.
    destruct failed; unfold paced; simpl; exact Hw.
  - intros w Hw. exact Hw.
  - intros w Hw. exact Hw.
Qed.

Lemma run_sleeps (start_date : Z) (file : option (list R)) (fuel : nat) :
  let tr := trace (run_state
                     (incremental_walker key fetch start_date end_date
                                         file fuel)) in
  count_events is_sleep tr = pages_fetched tr.
Proof.
  cbv zeta.
  apply (run_reach Raw R conv key net end_date
           (fun w => count_events is_sleep (trace w)
                     = pages_fetched (trace w))
           (fun w => count_events is_sleep (trace w)
                     = pages_fetched (trace w))).
  - destruct file; reflexivity.
  - intros w c x raw Hw _ _ _. rewrite page_step_trace.
    unfold count_events in *.
    destruct (_ =? 0)%nat; simpl; rewrite Hw; reflexivity.
  - auto.
  - intros w c failed Hw _ _. rewrite stop_step_trace.
    unfold count_events in *. destruct failed; simpl; exact Hw.
  - intros w Hw. exact Hw.
  - intros w Hw. exact Hw.
Qed.

Lemma run_requests_in_range (start_date : Z) (file : option (list R))
    (fuel : nat) :
  requests_in_range end_date
    (trace (run_state
              (incremental_walker key fetch start_date end_date file fuel))).
Proof.
  apply (run_reach Raw R conv key net end_date
           (fun w => requests_in_range end_date (trace w))
           (fun w => requests_in_range end_date (trace w))).
  - destruct file; intros s0 e0 l0 [H|[]]; discriminate.
  - intros w c x raw Hw _ Hlt _ s0 e0 l0. rewrite page_step_trace.
    destruct (_ =? 0)%nat; simpl; intros Hin.
    + destruct Hin as [H|[H|[H|[H|[H|[H|H]]]]]]; try discriminate.
      * injection H as E1 E2 E3. subst. auto.
      * apply (Hw _ _ _ H).
    + destruct Hin as [H|[H|[H|[H|H]]]]; try discriminate.
      * injection H as E1 E2 E3. subst. auto.
      * apply (Hw _ _ _ H).
  - auto.
  - intros w c failed Hw _ Hlt s0 e0 l0. rewrite stop_step_trace.
    destruct failed; simpl; intros Hin.
    + destruct Hin as [H|[H|[H|[H|H]]]]; try discriminate.
      * injection H as E1 E2 E3. subst. auto.
      * apply (Hw _ _ _ H).
    + destruct Hin as [H|[H|[H|H]]]; try discriminate.
      * injection H as E1 E2 E3. subst. auto.
      * apply (Hw _ _ _ H).
  - intros w Hw s0 e0 l0 [H|H]; [discriminate|apply (Hw _ _ _ H)].
  - intros w Hw s0 e0 l0 [H|[H|H]]; try discriminate.
    apply (Hw _ _ _ H).
Qed.

Lemma run_request_accounting (start_date : Z) (file : option (list R))
    (fuel : nat) :
  let tr := trace (run_state
                     (incremental_walker key fetch start_date end_date
                                         file fuel)) in
  requests_made tr
  = (pages_fetched tr + count_events is_no_more_data tr)%nat
  /\ (count_events is_no_more_data tr <= 1)%nat
  /\ (count_events is_log_error tr <= count_events is_no_more_data tr)%nat.
Proof.
  cbv zeta.
  apply (run_reach Raw R conv key net end_date
           (fun w => requests_made (trace w) = pages_fetched (trace w)
                     /\ count_events is_no_more_data (trace w) = 0%nat
                     /\ count_events is_log_error (trace w) = 0%nat)
           (fun w => requests_made (trace w)
                     = (pages_fetched (trace w)
                        + count_events is_no_more_data (trace w))%nat
                     /\ (count_events is_no_more_data (trace w) <= 1)%nat
                     /\ (count_events is_log_error (trace w)
                         <= count_events is_no_more_data (trace w))%nat)).
  - destruct file; repeat split; reflexivity.
  - intros w c x raw (H1 & H2 & H3) _ _ _. rewrite page_step_trace.
    unfold count_events, requests_made in *.
    destruct (_ =? 0)%nat; simpl; rewrite H1; auto.
  - intros w (H1 & H2 & H3). lia.
  - intros w c failed (H1 & H2 & H3) _ _. rewrite stop_step_trace.
    unfold count_events, requests_made in *.
    destruct failed; simpl; lia.
  - intros w H. exact H.
  - intros w H. exact H.
Qed.

Lemma run_total_fetched (start_date : Z) (file : option (list R))
    (fuel : nat) :
  let w := run_state
             (incremental_walker key fetch start_date end_date file fuel) in
  (total_fetched w + length (concat (initial_frames file)))%nat
  = length (concat (all_data w)).
Proof.
  cbv zeta.
  apply (run_reach Raw R conv key net end_date
           (fun w => (total_fetched w
                      + length (concat (initial_frames file)))%nat
                     = length (concat (all_data w)))
           (fun w => (total_fetched w
                      + length (concat (initial_frames file)))%nat
                     = length (concat (all_data w)))).
  - destruct file; reflexivity.
  - intros w c x raw Hw _ _ _. generalize (map conv (x :: raw)) as page.
    intros page. rewrite page_step_all_data.
    replace (total_fetched (page_step key end_date w c page))
      with (total_fetched w + length page)%nat.
    + rewrite concat_app, length_app. simpl concat.
      rewrite app_nil_r. lia.
    + unfold page_step, checkpoint. simpl.
      destruct (_ =? 0)%nat; reflexivity.
  - auto.
  - intros w c failed Hw _ _. exact Hw.
  - intros w Hw. exact Hw.
  - intros w Hw. exact Hw.
Qed.
End TraceFacts.

(** X1.  Rate limiting ([_respect_rate_limit], called at lines 174 and
    254).  In the trace of either walker, at any point of any run, there is
    a sleep between any two requests, and the number of sleeps is the number
    of pages appended: the sleep follows every page, the last short one
    included, and never a request that brought no page. *)
Theorem requests_are_paced
    (netK : Net RawKline) (netF : Net RawFunding)
    (start_date end_date : Z)
    (fileK : option (list BarRecord)) (fileF : option (list FundingRecord))
    (fuel : nat) :
  let trK := trace (run_state (Klines.fetch_historical_klines
                                 netK start_date end_date fileK fuel)) in
  let trF := trace (run_state (Funding.fetch_historical_funding_rates
                                 netF start_date end_date fileF fuel)) in
  (paced trK = true /\ count_events is_sleep trK = pages_fetched trK)
  /\ (paced trF = true /\ count_events is_sleep trF = pages_fetched trF).
Proof.
  cbv zeta. rewrite klines_is_walker, funding_is_walker.
  repeat split.
  - apply run_paced.
  - apply run_sleeps.
  - apply run_paced.
  - apply run_sleeps.
Qed.



(** X4.  [total_fetched] counts the rows of the pages fetched in this run:
    together with the rows loaded from the file it is the number of rows in
    the buffer. *)
Theorem total_fetched_counts_rows
    (netK : Net RawKline) (netF : Net RawFunding)
    (start_date end_date : Z)
    (fileK : option (list BarRecord)) (fileF : option (list FundingRecord))
    (fuel : nat) :
  let wK := run_state (Klines.fetch_historical_klines
                         netK start_date end_date fileK fuel) in
  let wF := run_state (Funding.fetch_historical_funding_rates
                         netF start_date end_date fileF fuel) in
  (total_fetched wK + length (concat (initial_frames fileK)))%nat
  = length (concat (all_data wK))
  /\ (total_fetched wF + length (concat (initial_frames fileF)))%nat
     = length (concat (all_data wF)).
Proof.
  cbv zeta. rewrite klines_is_walker, funding_is_walker.
  split; apply run_total_fetched.
Qed.

(** ** What a call returns *)

Section ReturnFacts.
Variables Raw R : Type.
Variable conv : Raw -> R.
Variable key : R -> Z.

Lemma loop_empty_buffer (net : Net Raw) (start_date end_date : Z)
    (file : option (list R)) (fuel : nat) :
  let w := state_of (walker_loop key (page_source conv net) end_date fuel
                       (walker_resume key start_date file)) in
  (all_data w = [] <-> file = None /\ pages_fetched (trace w) = 0%nat)
  /\ (all_data w = [] -> disk w = None /\ snapshots (trace w) = []).
Proof.
  cbv zeta.
  apply (loop_reach Raw R conv key net end_date
           (fun w => (all_data w = []
                      <-> file = None /\ pages_fetched (trace w) = 0%nat)
                     /\ (all_data w = []
                         -> disk w = None /\ snapshots (trace w) = []))
           (fun w => (all_data w = []
                      <-> file = None /\ pages_fetched (trace w) = 0%nat)
                     /\ (all_data w = []
                         -> disk w = None /\ snapshots (trace w) = []))).
  - intros w c x raw _ _ _ _.
    rewrite page_step_all_data, page_step_pages_fetched.
    split; [split|]; intros H.
    + apply app_eq_nil in H as [_ H]; discriminate.
    + destruct H; discriminate.
    + apply app_eq_nil in H as [_ H]; discriminate.
  - auto.
  - intros w c failed [H1 H2] _ _.
    rewrite stop_step_pages_fetched.
    split; [exact H1|]. intros H. destruct (H2 H) as [Hd Hs].
    split; [exact Hd|]. rewrite stop_step_trace.
    destruct failed; simpl; exact Hs.
  - destruct file; simpl; split; [split| |split|]; intros H;
      try discriminate; try (destruct H; discriminate); auto.
Qed.

Lemma walker_return : return_matches_file
  (fun net => incremental_walker key (page_source conv net)).
Proof.
  intros net start_date end_date file fuel ret w.
  unfold incremental_walker.
  pose proof (loop_empty_buffer net start_date end_date file fuel)
    as [Hiff Hnil].
  cbv zeta in Hiff, Hnil.
  destruct (walker_loop key (page_source conv net) end_date fuel
              (walker_resume key start_date file)) as [w0|w0];
    [|discriminate].
  simpl state_of in *. unfold walker_done.
  destruct (all_data w0) as [|f fs] eqn:Hall; simpl truthy; cbv iota.
  - intros [= <- <-]. simpl. split.
    + split; [intros _; apply Hiff; reflexivity|reflexivity].
    + apply Hnil. reflexivity.
  - intros [= <- <-]. simpl. split.
    + split; [discriminate|]. intros H. apply Hiff in H. discriminate.
    + split; [reflexivity|]. eexists. reflexivity.
Qed.

Lemma loop_pages (net : Net Raw) (start_date end_date : Z)
    (file : option (list R)) (fuel : nat) :
  let w := state_of (walker_loop key (page_source conv net) end_date fuel
                       (walker_resume key start_date file)) in
  exists pages,
    all_data w = initial_frames file ++ pages
    /\ length pages = pages_fetched (trace w)
    /\ forall page, In page pages ->
         exists i c raw,
           net i c end_date = JsonArray raw /\ page = map conv raw.
Proof.
  cbv zeta.
  apply (loop_reach Raw R conv key net end_date
           (fun w => exists pages,
                all_data w = initial_frames file ++ pages
                /\ length pages = pages_fetched (trace w)
                /\ forall page, In page pages ->
                     exists i c raw,
                       net i c end_date = JsonArray raw
                       /\ page = map conv raw)
           (fun w => exists pages,
                all_data w = initial_frames file ++ pages
                /\ length pages = pages_fetched (trace w)
                /\ forall page, In page pages ->
                     exists i c raw,
                       net i c end_date = JsonArray raw
                       /\ page = map conv raw)).
  - intros w c x raw (pages & Hall & Hlen & Hfrom) _ _ Hreply.
    exists (pages ++ [map conv (x :: raw)]).
    rewrite page_step_all_data, page_step_pages_fetched, Hall, app_assoc,
      length_app, Hlen.
    split; [reflexivity|]. split; [simpl; lia|].
    intros page Hin. apply in_app_or in Hin as [Hin|[<-|[]]]; [auto|].
    exists (requests_made (trace w)), c, (x :: raw). auto.
  - auto.
  - intros w c failed (pages & Hall & Hlen & Hfrom) _ _.
    exists pages. rewrite stop_step_pages_fetched. auto.
  - exists []. destruct file; simpl;
      (split; [reflexivity|]; split; [reflexivity|]; intros page []).
Qed.

Lemma walker_fetched : returns_what_was_fetched conv key
  (fun net => incremental_walker key (page_source conv net)).
Proof.
  intros net start_date end_date file fuel rows w.
  unfold incremental_walker.
  pose proof (loop_pages net start_date end_date file fuel) as Hpages.
  cbv zeta in Hpages.
  destruct (walker_loop key (page_source conv net) end_date fuel
              (walker_resume key start_date file)) as [w0|w0];
    [|discriminate].
  simpl state_of in *. unfold walker_done.
  destruct (truthy (all_data w0)); [|discriminate].
  intros [= <- <-]. simpl.
  destruct Hpages as (pages & Hall & Hlen & Hfrom).
  exists pages. rewrite Hall in *.
  split; [reflexivity|]. split; [exact Hlen|]. split; [exact Hfrom|].
  split.
  - intros k. apply combine_keys.
  - intros r. apply combine_incl.
Qed.
End ReturnFacts.

(** X5.  What a call returns and what it leaves in the file, for both
    walkers.  [None] is returned exactly when there was no file and no page
    was fetched, and then no file is written.  Otherwise a frame is
    returned, the file holds exactly that frame, and writing it (with the
    "Complete" log line giving its length) is the last thing the call
    does. *)
Theorem return_value_and_file :
  return_matches_file Klines.fetch_historical_klines
  /\ return_matches_file Funding.fetch_historical_funding_rates.
Proof.
  split.
  - intros net start_date end_date file fuel ret w.
    rewrite klines_is_walker.
    apply (walker_return RawKline BarRecord kline_of_raw open_time).
  - intros net start_date end_date file fuel ret w.
    rewrite funding_is_walker.
    apply (walker_return RawFunding FundingRecord funding_of_raw
             fundingTime).
Qed.

(** The provider sends two bars and the call returns them; it times out
    and, without a file, the call returns [None] and writes nothing. *)
Lemma return_value_and_file_witness :
  (exists w,
      Klines.fetch_historical_klines two_bars_net 0 10 None 3
      = Returned (Some [bar_at 0 2%Q; bar_at 5 2%Q]) w
      /\ disk w = Some [bar_at 0 2%Q; bar_at 5 2%Q])
  /\ (exists w,
      Klines.fetch_historical_klines timeout_net 0 10 None 3
      = Returned None w
      /\ disk w = None /\ snapshots (trace w) = []).
Proof.
  split; eexists; (split; [reflexivity|]).
  - apply (proj1 return_value_and_file two_bars_net 0 10 None 3%nat
             (Some [bar_at 0 2%Q; bar_at 5 2%Q]) _ eq_refl).
  - apply (proj1 return_value_and_file timeout_net 0 10 None 3%nat
             None _ eq_refl).
Defined.

(** X6.  The frame a walker returns is made of what it loaded and fetched:
    the buffer is the file's frame followed by one frame per fetched page,
    each the conversion of a reply of the provider to a request with
    [endTime = end_date]; every returned row is a row of the file or of one
    of those pages, and every primary time of the file or of a page is the
    time of a returned row.  No time is lost and no row is made up. *)
Theorem returned_rows_come_from_file_and_pages :
  returns_what_was_fetched kline_of_raw open_time
    Klines.fetch_historical_klines
  /\ returns_what_was_fetched funding_of_raw fundingTime
       Funding.fetch_historical_funding_rates.
Proof.
  split.
  - intros net start_date end_date file fuel rows w.
    rewrite klines_is_walker.
    apply (walker_fetched RawKline BarRecord kline_of_raw open_time).
  - intros net start_date end_date file fuel rows w.
    rewrite funding_is_walker.
    apply (walker_fetched RawFunding FundingRecord funding_of_raw
             fundingTime).
Qed.

(** A file with a bar at 7 and a page with bars at 0 and 5: the returned
    frame has a row at 0, 5 and 7 and nothing else. *)
Lemma returned_rows_come_from_file_and_pages_witness :
  exists w pages,
    Klines.fetch_historical_klines two_bars_net 0 10
      (Some [bar_at 7 1%Q]) 3
    = Returned (Some [bar_at 0 2%Q; bar_at 5 2%Q; bar_at 7 1%Q]) w
    /\ all_data w = [[bar_at 7 1%Q]] ++ pages
    /\ length pages = 1%nat.
Proof.
  eexists.
  destruct (proj1 returned_rows_come_from_file_and_pages two_bars_net 0 10
              (Some [bar_at 7 1%Q]) 3%nat
              [bar_at 0 2%Q; bar_at 5 2%Q; bar_at 7 1%Q] _ eq_refl)
    as (pages & Hall & Hlen & _).
  exists pages. split; [reflexivity|]. split; [exact Hall|exact Hlen].
Defined.

(** ** Successive writes of the file *)

Section Growth.
Variables Raw R : Type.
Variable conv : Raw -> R.
Variable key : R -> Z.
Variable net : Net Raw.
Variable end_date : Z.

Let fetch := page_source conv net.

(** A frame combined from a buffer is contained in the frame combined from
    any extension of that buffer. *)
Lemma combine_extends (frames more : list (list R)) (r : R) :
  In r (combine key frames) -> In r (combine key (frames ++ more)).
Proof.
  intros Hr.
  pose proof (find_unique_row key (combine key frames) r
                (combine_NoDup key frames) Hr) as Hfind.
  rewrite combine_first in Hfind.
  assert (H : find (has_key key (key r)) (combine key (frames ++ more))
              = Some r).
  { rewrite combine_first, concat_app, find_app_first, Hfind.
    reflexivity. }
  apply find_some in H. tauto.
Qed.

Lemma page_step_snapshots (w : Walker R) (c : Z) (page : list R) :
  snapshots (trace (page_step key end_date w c page))
  = (if (length (all_data w ++ [page]) mod 10 =? 0)%nat
     then [combine key (all_data w ++ [page])]
     else []) ++ snapshots (trace w).
Proof.
  rewrite page_step_trace.
  destruct (_ =? 0)%nat; reflexivity.
Qed.

Lemma stop_step_snapshots (w : Walker R) (c : Z) (failed : bool) :
  snapshots (trace (stop_step end_date w c failed))
  = snapshots (trace w).
Proof. destruct failed; reflexivity. Qed.

Lemma growing_write (w w' : Walker R) (extra : list (list R)) :
  growing key w ->
  all_data w' = all_data w ++ extra ->
  snapshots (trace w') = combine key (all_data w') :: snapshots (trace w) ->
  growing key w'.
Proof.
  intros [Hpre Hord] Hall Hsnap. unfold growing. rewrite Hsnap.
  split.
  - constructor.
    + exists (all_data w'), []. rewrite app_nil_r. auto.
    + eapply Forall_impl; [|exact Hpre].
      intros s (before & after & Hb & Hs).
      exists before, (after ++ extra). rewrite Hall, Hb, app_assoc. auto.
  - constructor; [|exact Hord].
    eapply Forall_impl; [|exact Hpre].
    intros s (before & after & Hb & ->) r Hr.
    rewrite Hall, Hb. rewrite <- app_assoc.
    apply combine_extends. exact Hr.
Qed.

Lemma growing_keep (w w' : Walker R) (extra : list (list R)) :
  growing key w ->
  all_data w' = all_data w ++ extra ->
  snapshots (trace w') = snapshots (trace w) ->
  growing key w'.
Proof.
  intros [Hpre Hord] Hall Hsnap. unfold growing. rewrite Hsnap.
  split; [|exact Hord].
  eapply Forall_impl; [|exact Hpre].
  intros s (before & after & Hb & Hs).
  exists before, (after ++ extra). rewrite Hall, Hb, app_assoc. auto.
Qed.

Lemma run_growing (start_date : Z) (file : option (list R)) (fuel : nat) :
  growing key (run_state
             (incremental_walker key fetch start_date end_date file fuel)).
Proof.
  apply (run_reach Raw R conv key net end_date (growing key) (growing key)).
  - destruct file; split; simpl; constructor.
  - intros w c x raw Hw _ _ _.
    destruct (length (all_data w ++ [map conv (x :: raw)]) mod 10 =? 0)%nat
      eqn:E.
    + apply (growing_write w _ [map conv (x :: raw)] Hw).
      * apply page_step_all_data.
      * rewrite page_step_snapshots, E, page_step_all_data. reflexivity.
    + apply (growing_keep w _ [map conv (x :: raw)] Hw).
      * apply page_step_all_data.
      * rewrite page_step_snapshots, E. reflexivity.
  - auto.
  - intros w c failed Hw _ _.
    apply (growing_keep w _ [] Hw).
    + rewrite app_nil_r. reflexivity.
    + apply stop_step_snapshots.
  - intros w Hw. apply (growing_keep w _ [] Hw).
    + rewrite app_nil_r. reflexivity.
    + reflexivity.
  - intros w Hw. apply (growing_write w _ [] Hw).
    + rewrite app_nil_r. reflexivity.
    + reflexivity.
Qed.
End Growth.

(** X7.  The file only grows.  Of any two frames a walker has written to
    its file in one run, checkpoints and final save alike, the later one
    contains every row of the earlier one, unchanged. *)
Theorem persisted_rows_stay
    (netK : Net RawKline) (netF : Net RawFunding)
    (start_date end_date : Z)
    (fileK : option (list BarRecord)) (fileF : option (list FundingRecord))
    (fuel : nat) :
  ForallOrdPairs (fun newer older => incl older newer)
    (snapshots (trace (run_state (Klines.fetch_historical_klines
                                    netK start_date end_date fileK fuel))))
  /\ ForallOrdPairs (fun newer older => incl older newer)
       (snapshots (trace (run_state (Funding.fetch_historical_funding_rates
                                       netF start_date end_date fileF
                                       fuel)))).
Proof.
  rewrite klines_is_walker, funding_is_walker. split.
  - apply (run_growing RawKline BarRecord kline_of_raw open_time).
  - apply (run_growing RawFunding FundingRecord funding_of_raw fundingTime).
Qed.

(** ** A walk against a provider serving a sorted store *)

Section Completeness.
Variables Raw R : Type.
Variable conv : Raw -> R.
Variable key : R -> Z.
Variable time : Raw -> Z.
Variable store : list Raw.
Variable end_date : Z.
Hypothesis Htime : forall r, key (conv r) = time r.
Hypothesis Hsorted : StronglySorted (lt_key time) store.

Let net := store_net time store.
Let fetch := page_source conv net.

Lemma filter_sorted (p : Raw -> bool) (l : list Raw) :
  StronglySorted (lt_key time) l ->
  StronglySorted (lt_key time) (filter p l).
Proof.
  induction 1 as [|x rest Hs IH Hx]; simpl; [constructor|].
  destruct (p x); [|exact IH].
  constructor; [exact IH|].
  apply Forall_forall. intros y Hy. apply filter_In in Hy as [Hy _].
  rewrite Forall_forall in Hx. auto.
Qed.

Lemma sorted_app_lt (l1 l2 : list Raw) :
  StronglySorted (lt_key time) (l1 ++ l2) ->
  forall a b, In a l1 -> In b l2 -> time a < time b.
Proof.
  induction l1 as [|x rest IH]; simpl; intros Hs a b Ha Hb; [contradiction|].
  apply StronglySorted_inv in Hs as [Hrest Hx].
  destruct Ha as [<-|Ha].
  - rewrite Forall_forall in Hx. apply Hx. apply in_or_app. auto.
  - apply IH; assumption.
Qed.

Lemma sorted_time_inj (a b : Raw) :
  In a store -> In b store -> time a = time b -> a = b.
Proof.
  intros Ha Hb E.
  apply (same_key_same_row time store); try assumption.
  apply strict_NoDup, strict_keys, Hsorted.
Qed.

(** A page of the store holds every row of the range up to its latest
    row. *)
Lemma serve_covers (c : Z) (m : Z) (r : Raw) :
  is_max time (serve time store c end_date) m ->
  In r store -> c <= time r <= m -> time r <= end_date ->
  In r (serve time store c end_date).
Proof.
  intros [(a & Ha & Hm) _] Hr Hrange Hend. unfold serve in *.
  set (L := filter (fun r => in_range c end_date (time r)) store) in *.
  assert (HL : In r L).
  { apply filter_In. split; [exact Hr|]. unfold in_range.
    apply andb_true_iff. split; apply Z.leb_le; lia. }
  rewrite <- (firstn_skipn 1000 L) in HL.
  apply in_app_or in HL as [HL|HL]; [exact HL|].
  exfalso.
  assert (Hs : StronglySorted (lt_key time)
                 (firstn 1000 L ++ skipn 1000 L)).
  { rewrite firstn_skipn. apply filter_sorted, Hsorted. }
  pose proof (sorted_app_lt _ _ Hs a r Ha HL). lia.
Qed.

Lemma serve_sound (c : Z) (r : Raw) :
  In r (serve time store c end_date) ->
  In r store /\ c <= time r <= end_date.
Proof.
  intros H. split.
  - unfold serve in H. apply firstn_incl in H.
    apply filter_In in H. tauto.
  - apply (serve_in_range time store c end_date r H).
Qed.

Lemma page_gathered (c0 : Z) (file : option (list R)) (w : Walker R)
    (c : Z) (x : Raw) (raw : list Raw) :
  gathered conv time store end_date c0 file w ->
  current_start w = Some c ->
  serve time store c end_date = x :: raw ->
  gathered conv time store end_date c0 file
    (page_step key end_date w c (map conv (x :: raw))).
Proof.
  intros (c' & Hc' & Hle & Hcov & Hsound) Hc Hserve.
  rewrite Hc in Hc'. injection Hc' as <-.
  destruct (column_max key (map conv (x :: raw))) as [m|] eqn:Em;
    [|apply column_max_nil in Em; discriminate].
  remember (x :: raw) as items eqn:Hitems.
  assert (Hmax : is_max time (serve time store c end_date) m).
  { rewrite Hserve. apply column_max_is_max in Em.
    destruct Em as [(y & Hy & Hk) Hub]. split.
    - apply in_map_iff in Hy as (a & <- & Ha). exists a.
      rewrite <- Htime. auto.
    - intros a Ha. rewrite <- Htime. apply Hub. apply in_map. exact Ha. }
  assert (Hcm : c <= m).
  { destruct Hmax as [(a & Ha & <-) _].
    apply (serve_in_range time store c end_date a Ha). }
  exists (m + 1). rewrite page_step_cursor, Em, page_step_all_data,
    concat_app. simpl concat. rewrite app_nil_r.
  split; [reflexivity|]. split; [lia|]. split.
  - intros r Hr Hrange Hend. apply in_or_app.
    destruct (Z_lt_ge_dec (time r) c) as [Hlt|Hge].
    + left. apply Hcov; [assumption|lia|assumption].
    + right. apply in_map. rewrite <- Hserve.
      apply (serve_covers c m r Hmax Hr); lia.
  - intros y Hy. apply in_app_or in Hy as [Hy|Hy]; [auto|].
    right. apply in_map_iff in Hy as (a & <- & Ha).
    rewrite <- Hserve in Ha. apply serve_sound in Ha as [Ha Hrange].
    exists a. split; [exact Ha|]. split; [reflexivity|lia].
Qed.

Lemma loop_gathered (start_date c0 : Z) (file : option (list R))
    (fuel : nat) :
  current_start (walker_resume key start_date file) = Some c0 ->
  gathered conv time store end_date c0 file
    (state_of (walker_loop key fetch end_date fuel
                 (walker_resume key start_date file))).
Proof.
  intros Hc0.
  apply (loop_reach Raw R conv key net end_date
           (gathered conv time store end_date c0 file)
           (gathered conv time store end_date c0 file)).
  - intros w c x raw Hw Hc _ Hreply. injection Hreply as Hreply.
    apply page_gathered; assumption.
  - auto.
  - intros w c failed Hw _ _. exact Hw.
  - exists c0. split; [exact Hc0|]. split; [lia|]. split.
    + intros r _ Hrange. lia.
    + intros y Hy. left. destruct file; exact Hy.
Qed.

(** Rows of the file are before the cursor the walk resumes at. *)
Lemma file_before_cursor (start_date c0 : Z) (file : option (list R))
    (y : R) :
  current_start (walker_resume key start_date file) = Some c0 ->
  In y (concat (initial_frames file)) -> key y < c0.
Proof.
  destruct file as [existing|]; simpl; [|contradiction].
  rewrite app_nil_r. intros Hc Hy.
  destruct (column_max key existing) as [m|] eqn:Em; [|discriminate].
  injection Hc as <-.
  pose proof (column_max_upper key existing Em y Hy). lia.
Qed.

Lemma walker_complete (start_date c0 : Z) (file : option (list R))
    (fuel : nat) :
  current_start (walker_resume key start_date file) = Some c0 ->
  (iterations_bound end_date (Some c0) <= fuel)%nat ->
  exists ret w,
    incremental_walker key fetch start_date end_date file fuel
    = Returned ret w
    /\ (forall r, In r store -> c0 <= time r < end_date ->
                  exists rows, ret = Some rows /\ In (conv r) rows)
    /\ (forall rows y, ret = Some rows -> In y rows ->
                       In y (concat (initial_frames file))
                       \/ exists r, In r store /\ y = conv r
                                    /\ c0 <= time r <= end_date).
Proof.
  intros Hc0 Hfuel.
  pose proof (loop_gathered start_date c0 file fuel Hc0) as Hg.
  assert (Hfin : exists w, walker_loop key fetch end_date fuel
                             (walker_resume key start_date file)
                           = Finished w).
  { apply (@loop_finishes Raw R conv key net end_date).
    - apply store_honours_start. exact Htime.
    - rewrite Hc0. exact Hfuel. }
  destruct Hfin as (w & Hloop).
  pose proof (@finished_exhausted Raw R conv key time store end_date Htime
                fuel _ _ Hloop) as Hex.
  unfold incremental_walker. fold fetch in Hloop |- *.
  rewrite Hloop in *. simpl state_of in Hg.
  destruct Hg as (c & Hc & Hle & Hcov & Hsound).
  assert (Hin : forall r, In r store -> c0 <= time r < end_date ->
                          In (conv r) (concat (all_data w))).
  { intros r Hr Hrange.
    destruct (Z_lt_ge_dec (time r) c) as [Hlt|Hge].
    - apply Hcov; [assumption|lia|lia].
    - exfalso. assert (Hce : c < end_date) by lia.
      pose proof (Hex c Hc Hce) as Hnil. unfold serve in Hnil.
      assert (HL : In r (filter (fun r => in_range c end_date (time r))
                            store)).
      { apply filter_In. split; [exact Hr|]. unfold in_range.
        apply andb_true_iff. split; apply Z.leb_le; lia. }
      destruct (filter (fun r => in_range c end_date (time r)) store);
        [contradiction|discriminate]. }
  unfold walker_done.
  destruct (all_data w) as [|f fs] eqn:Hall.
  - exists None, (log LogNoData w). simpl.
    split; [reflexivity|]. split.
    + intros r Hr Hrange. destruct (Hin r Hr Hrange).
    + intros rows y H. discriminate.
  - simpl truthy. cbv iota.
    eexists. eexists. split; [reflexivity|]. split.
    + intros r Hr Hrange. eexists. split; [reflexivity|].
      pose proof (Hin r Hr Hrange) as Hbuf.
      assert (Hfind : find (has_key key (key (conv r)))
                        (combine key (f :: fs)) = Some (conv r)).
      { rewrite combine_first.
        destruct (find_key_present key (concat (f :: fs)) (key (conv r))
                    (in_map key _ _ Hbuf)) as (y & Hy).
        rewrite Hy. f_equal.
        apply find_has_key in Hy as [Hyin Hyk].
        destruct (Hsound y Hyin) as [Hfile|(a & Ha & -> & Harange)].
        - pose proof (file_before_cursor start_date c0 file y Hc0 Hfile).
          rewrite Htime in Hyk. lia.
        - rewrite !Htime in Hyk. f_equal.
          apply sorted_time_inj; assumption. }
      apply find_some in Hfind. tauto.
    + intros rows y [= <-] Hy. apply Hsound.
      apply (combine_incl key (f :: fs) y Hy).
Qed.
End Completeness.



(** ** Restarting from what a killed run left in the file *)

Section FuelFacts.
Variable S : Type.
Variable cond : S -> bool.
Variable body : S -> Flow S.

Lemma while_extra_fuel (fuel : nat) :
  forall s s', while cond body fuel s = Finished s' ->
  forall extra, while cond body (fuel + extra) s = Finished s'.
Proof.
  induction fuel as [|fuel IH]; intros s s' H extra; simpl in *.
  - destruct (cond s) eqn:C; [discriminate|].
    destruct extra; simpl; rewrite C; assumption.
  - destruct (cond s); [|assumption].
    destruct (body s); [apply IH|]; assumption.
Qed.

Lemma while_split (k n : nat) :
  forall s,
    while cond body (k + n) s
    = match while cond body k s with
      | Finished s' => Finished s'
      | OutOfFuel s' => while cond body n s'
      end.
Proof.
  induction k as [|k IH]; intros s; simpl.
  - destruct (cond s) eqn:C; [reflexivity|].
    destruct n; simpl; rewrite C; reflexivity.
  - destruct (cond s); [|reflexivity].
    destruct (body s); [apply IH|reflexivity].
Qed.

Lemma while_out_of_fuel (k : nat) :
  forall s s', while cond body k s = OutOfFuel s' -> cond s' = true.
Proof.
  induction k as [|k IH]; intros s s'; simpl.
  - destruct (cond s) eqn:C; [|discriminate]. intros [= <-]. exact C.
  - destruct (cond s); [|discriminate].
    destruct (body s); [apply IH|discriminate].
Qed.

(** The state after one more iteration. *)
Lemma while_next (k : nat) :
  forall s,
    state_of (while cond body (Datatypes.S k) s)
    = match while cond body k s with
      | Finished s' => s'
      | OutOfFuel s' => flow_state (body s')
      end.
Proof.
  replace (Datatypes.S k) with (k + 1)%nat by lia.
  intros s. rewrite while_split.
  destruct (while cond body k s) as [s'|s'] eqn:E; [reflexivity|].
  apply while_out_of_fuel in E. simpl. rewrite E.
  destruct (body s') as [s''|s'']; simpl; [|reflexivity].
  destruct (cond s''); reflexivity.
Qed.
End FuelFacts.

Section SortedFrames.
Variable R : Type.
Variable key : R -> Z.

Lemma find_beyond (l : list R) (k : Z) :
  Forall (fun y => k < key y) l -> find (has_key key k) l = None.
Proof.
  induction 1 as [|y rest Hy _ IH]; simpl; [reflexivity|].
  unfold has_key at 1. destruct (key y =? k) eqn:E; [|exact IH].
  apply Z.eqb_eq in E. lia.
Qed.

Lemma find_has_key_head (x : R) (t : list R) :
  find (has_key key (key x)) (x :: t) = Some x.
Proof. simpl. unfold has_key. rewrite Z.eqb_refl. reflexivity. Qed.

Lemma find_has_key_tail (x : R) (t : list R) (k : Z) :
  key x <> k -> find (has_key key k) (x :: t) = find (has_key key k) t.
Proof.
  intros H. simpl. unfold has_key at 1.
  apply Z.eqb_neq in H. rewrite H. reflexivity.
Qed.

(** A frame with strictly increasing times is determined by the row it
    has at each time. *)
Lemma strict_sorted_ext (l1 : list R) :
  forall l2,
    StronglySorted (lt_key key) l1 -> StronglySorted (lt_key key) l2 ->
    (forall k, find (has_key key k) l1 = find (has_key key k) l2) ->
    l1 = l2.
Proof.
  induction l1 as [|x1 t1 IH]; intros l2 H1 H2 Hfind.
  - destruct l2 as [|x2 t2]; [reflexivity|].
    specialize (Hfind (key x2)). rewrite find_has_key_head in Hfind.
    discriminate.
  - destruct l2 as [|x2 t2].
    + specialize (Hfind (key x1)). rewrite find_has_key_head in Hfind.
      discriminate.
    + apply StronglySorted_inv in H1 as [Ht1 Hx1].
      apply StronglySorted_inv in H2 as [Ht2 Hx2].
      assert (Hin12 : In x1 (x2 :: t2)).
      { pose proof (Hfind (key x1)) as H.
        rewrite find_has_key_head in H. symmetry in H.
        apply find_has_key in H. tauto. }
      assert (Hin21 : In x2 (x1 :: t1)).
      { pose proof (Hfind (key x2)) as H.
        rewrite (find_has_key_head x2) in H.
        apply find_has_key in H. tauto. }
      assert (Hx : x1 = x2).
      { rewrite Forall_forall in Hx1, Hx2. unfold lt_key in Hx1, Hx2.
        destruct Hin12 as [E|Hin12]; [congruence|].
        destruct Hin21 as [E|Hin21]; [congruence|].
        specialize (Hx1 _ Hin21). specialize (Hx2 _ Hin12). lia. }
      subst x2. f_equal. apply IH; try assumption.
      intros k. specialize (Hfind k).
      destruct (Z.eq_dec (key x1) k) as [E|NE].
      * subst k. rewrite !find_beyond; [reflexivity|exact Hx2|exact Hx1].
      * rewrite !find_has_key_tail in Hfind by exact NE. exact Hfind.
Qed.

Lemma combine_app_congr (a b more : list (list R)) :
  combine key a = combine key b ->
  combine key (a ++ more) = combine key (b ++ more).
Proof.
  intros H. apply strict_sorted_ext; try apply combine_strict.
  intros k. rewrite !combine_first, !concat_app, !find_app_first.
  rewrite <- !combine_first, H. reflexivity.
Qed.
End SortedFrames.

Section DiskHistory.
Variables Raw R : Type.
Variable conv : Raw -> R.
Variable key : R -> Z.
Variable net : Net Raw.
Variable end_date : Z.

Let fetch := page_source conv net.

(** What the file holds at an iteration boundary is the file the run
    started from, or the frame combined from the buffer as it stood at some
    iteration boundary of the run. *)
Lemma disk_history (start_date : Z) (file : option (list R)) (k : nat) :
  let state j := state_of (walker_loop key fetch end_date j
                             (walker_resume key start_date file)) in
  disk (state k) = file
  \/ exists j, disk (state k) = Some (combine key (all_data (state j)))
               /\ all_data (state j) <> [].
Proof.
  cbv zeta. induction k as [|k IH].
  - left. unfold walker_loop. simpl.
    destruct (walker_cond end_date (walker_resume key start_date file));
      destruct file; reflexivity.
  - unfold walker_loop in *. rewrite while_next.
    destruct (while (walker_cond end_date) (walker_body key fetch end_date)
                k (walker_resume key start_date file)) as [w|w] eqn:E;
      simpl state_of in IH; [exact IH|].
    pose proof (while_next (Walker R) (walker_cond end_date)
                  (walker_body key fetch end_date) k
                  (walker_resume key start_date file)) as Hnext.
    rewrite E in Hnext.
    apply while_out_of_fuel in E.
    destruct (@walker_body_cases Raw R conv key net end_date w E)
      as (c & Hc & Hlt & [(x & raw & Hreply & Hb)|(_ & failed & Hb)]);
      fold fetch in Hb; rewrite Hb in *.
    + rewrite flow_state_if in *. rewrite page_step_disk.
      destruct (_ =? 0)%nat.
      * right. exists (Datatypes.S k). rewrite Hnext.
        rewrite page_step_all_data. split; [reflexivity|].
        intros H. apply app_eq_nil in H as [_ H]. discriminate.
      * exact IH.
    + simpl. exact IH.
Qed.
End DiskHistory.

Section Restart.
Variables Raw R : Type.
Variable conv : Raw -> R.
Variable key : R -> Z.
Variable time : Raw -> Z.
Variable store : list Raw.
Variable end_date : Z.
Hypothesis Htime : forall r, key (conv r) = time r.

Let net := store_net time store.
Let fetch := page_source conv net.

Lemma same_progress_page (w' w : Walker R) (c c' : Z) (page : list R) :
  same_progress key w' w ->
  same_progress key (page_step key end_date w' c' page)
                    (page_step key end_date w c page).
Proof.
  intros (Hcur & Hcomb & Hn' & Hn). unfold same_progress.
  rewrite !page_step_cursor, !page_step_all_data.
  split; [reflexivity|]. split; [apply combine_app_congr; exact Hcomb|].
  split; intros H; apply app_eq_nil in H as [_ H]; discriminate.
Qed.

(** From states of the same progress the loop goes the same way. *)
Lemma same_progress_loop (fuel : nat) :
  forall w' w b,
    same_progress key w' w ->
    walker_loop key fetch end_date fuel w = Finished b ->
    exists a,
      walker_loop key fetch end_date fuel w' = Finished a
      /\ same_progress key a b.
Proof.
  unfold walker_loop, fetch.
  induction fuel as [|fuel IH]; intros w' w b Hrel Hb;
    pose proof Hrel as (Hcur & _);
    assert (Hcond : walker_cond end_date w' = walker_cond end_date w)
      by (unfold walker_cond; rewrite Hcur; reflexivity);
    simpl in Hb |- *; rewrite Hcond;
    destruct (walker_cond end_date w) eqn:C.
  - discriminate.
  - injection Hb as <-. eauto.
  - unfold walker_cond, lt_instant in C.
    destruct (current_start w) as [c|] eqn:Hc; [|discriminate].
    destruct (serve time store c end_date) as [|x raw] eqn:Hserve.
    + rewrite (walker_body_stop conv key net end_date w' Hcur)
        by (unfold net, store_net; rewrite Hserve; discriminate).
      rewrite (walker_body_stop conv key net end_date w Hc) in Hb
        by (unfold net, store_net; rewrite Hserve; discriminate).
      injection Hb as <-. eexists. split; [reflexivity|].
      destruct Hrel as (_ & Hcomb & Hn' & Hn).
      unfold same_progress, stop_step. simpl. rewrite Hcur, Hc. auto.
    + rewrite (walker_body_page conv key net end_date w' (x := x)
                 (raw := raw) Hcur)
        by (unfold net, store_net; rewrite Hserve; reflexivity).
      rewrite (walker_body_page conv key net end_date w (x := x)
                 (raw := raw) Hc) in Hb
        by (unfold net, store_net; rewrite Hserve; reflexivity).
      destruct (length (x :: raw) <? 1000)%nat.
      * injection Hb as <-. eexists. split; [reflexivity|].
        apply same_progress_page. exact Hrel.
      * apply (IH _ _ _ (same_progress_page _ _ c c _ Hrel) Hb).
  - injection Hb as <-. eauto.
Qed.

Lemma same_progress_done (a b : Walker R) :
  same_progress key a b ->
  exists rows wa wb,
    walker_done key a = Returned (Some rows) wa
    /\ walker_done key b = Returned (Some rows) wb.
Proof.
  intros (_ & Hcomb & Hna & Hnb). unfold walker_done.
  destruct (all_data a) as [|fa ta] eqn:Ea; [contradiction|].
  destruct (all_data b) as [|fb tb] eqn:Eb; [contradiction|].
  simpl truthy. cbv iota. rewrite Hcomb.
  eexists. eexists. eexists. split; reflexivity.
Qed.

(** Restarting from the frame combined from the buffer at an iteration
    boundary gives the frame the run itself returns. *)
Lemma restart_from_boundary (start_date : Z) (file : option (list R))
    (fuel j : nat) :
  (S (iterations_bound end_date
        (current_start (walker_resume key start_date file))) <= fuel)%nat ->
  let wj := state_of (walker_loop key fetch end_date j
                        (walker_resume key start_date file)) in
  all_data wj <> [] ->
  exists ret w1 w2,
    incremental_walker key fetch start_date end_date file fuel
    = Returned ret w1
    /\ incremental_walker key fetch start_date end_date
         (Some (combine key (all_data wj))) fuel
       = Returned ret w2.
Proof.
  intros Hfuel wj Hne. subst wj.
  remember (walker_resume key start_date file) as w0 eqn:Hw0.
  assert (Hfin : exists wf, walker_loop key fetch end_date fuel w0
                            = Finished wf).
  { apply (@loop_finishes Raw R conv key net end_date).
    - apply store_honours_start. exact Htime.
    - subst w0. lia. }
  destruct Hfin as (wf & Hloop).
  pose proof (@loop_cursor_past_buffer Raw R conv key time store end_date
                Htime start_date file j) as Hpast.
  fold net in Hpast. fold fetch in Hpast. rewrite <- Hw0 in Hpast.
  remember (state_of (walker_loop key fetch end_date j w0)) as wj eqn:Hwj.
  remember (combine key (all_data wj)) as snap eqn:Hsnap.
  assert (Hrel : same_progress key
                   (walker_resume key start_date (Some snap)) wj).
  { unfold same_progress. simpl. split; [|split; [|split]].
    - subst snap. rewrite column_max_combine. symmetry. apply Hpast.
      exact Hne.
    - subst snap. apply combine_idempotent.
    - discriminate.
    - exact Hne. }
  unfold incremental_walker. rewrite <- Hw0, Hloop.
  destruct (walker_loop key fetch end_date j w0) as [w|w] eqn:Ej;
    simpl state_of in Hwj; subst wj.
  - (* the loop had already stopped *)
    assert (w = wf) as ->.
    { pose proof (while_extra_fuel _ _ _ _ _ _ Ej fuel) as H1.
      pose proof (while_extra_fuel _ _ _ _ _ _ Hloop j) as H2.
      rewrite Nat.add_comm in H2. congruence. }
    pose proof (@finished_exhausted Raw R conv key time store end_date Htime
                  fuel _ _ Hloop) as Hex.
    assert (Hex' : exhausted time store end_date
                     (walker_resume key start_date (Some snap))).
    { intros c Hc. apply Hex. destruct Hrel as (Hcur & _).
      rewrite <- Hcur. exact Hc. }
    destruct fuel as [|fuel']; [lia|].
    destruct (@exhausted_loop Raw R conv key time store end_date fuel' _
                Hex') as (w2 & Hloop2 & Hall2).
    fold net in Hloop2. fold fetch in Hloop2. rewrite Hloop2.
    unfold walker_done. rewrite Hall2.
    destruct (all_data wf) as [|f fs] eqn:Hall; [contradiction|].
    simpl truthy. cbv iota.
    change (all_data (walker_resume key start_date (Some snap)))
      with [snap].
    subst snap. rewrite combine_idempotent.
    eexists. eexists. eexists. split; reflexivity.
  - (* the loop was still paging *)
    assert (Hcont : walker_loop key fetch end_date fuel w = Finished wf).
    { pose proof (while_extra_fuel _ _ _ _ _ _ Hloop j) as H2.
      rewrite Nat.add_comm in H2.
      unfold walker_loop in Ej, H2 |- *.
      rewrite while_split, Ej in H2. exact H2. }
    destruct (same_progress_loop fuel _ _ _ Hrel Hcont) as (a & Ha & Hsim).
    rewrite Ha.
    destruct (same_progress_done a wf Hsim) as (rows & wa & wb & Hda & Hdb).
    rewrite Hda, Hdb. eauto.
Qed.

Lemma restart_any (start_date : Z) (file : option (list R))
    (fuel k : nat) :
  (S (iterations_bound end_date
        (current_start (walker_resume key start_date file))) <= fuel)%nat ->
  let killed := state_of (walker_loop key fetch end_date k
                            (walker_resume key start_date file)) in
  exists ret w1 w2,
    incremental_walker key fetch start_date end_date file fuel
    = Returned ret w1
    /\ incremental_walker key fetch start_date end_date (disk killed) fuel
       = Returned ret w2.
Proof.
  intros Hfuel killed. subst killed. unfold fetch.
  destruct (disk_history Raw R conv key net end_date start_date file k)
    as [Hsame|(j & Hdisk & Hne)].
  - rewrite Hsame.
    destruct (@walker_returns Raw R conv key net end_date
                (@store_honours_start Raw R conv key time store Htime)
                start_date file fuel) as (ret & w & Hrun); [lia|].
    exists ret, w, w. auto.
  - rewrite Hdisk.
    apply (restart_from_boundary start_date file fuel j Hfuel Hne).
Qed.
End Restart.



(** ** Default output files *)

Section SplitAtLast.
Variable A : Type.
Variable u : A.

(** A list is split in one way only at an element that does not occur
    after the split. *)
Lemma split_at_last_unique (s : list A) :
  forall s' i i',
    ~ In u i -> ~ In u i' ->
    s ++ u :: i = s' ++ u :: i' -> s = s' /\ i = i'.
Proof.
  induction s as [|a s IH]; intros s' i i' Hi Hi' E.
  - destruct s' as [|b s']; simpl in E.
    + injection E as E. auto.
    + injection E as Eu E. exfalso. apply Hi. rewrite E.
      apply in_or_app. right. left. reflexivity.
  - destruct s' as [|b s']; simpl in E.
    + injection E as Eu E. exfalso. apply Hi'. rewrite <- E.
      apply in_or_app. right. left. reflexivity.
    + injection E as Eab E. destruct (IH s' i i' Hi Hi' E) as [-> ->].
      subst b. auto.
Qed.
End SplitAtLast.

Module PathFacts.
Import Stdlib.Strings.Ascii Stdlib.Strings.String.
Import Paths.
Local Open Scope string_scope.

Lemma chars_append (a b : string) :
  chars (a ++ b) = (chars a ++ chars b)%list.
Proof.
  unfold chars. induction a as [|c a IH]; simpl; [reflexivity|].
  rewrite IH. reflexivity.
Qed.

Lemma chars_inj (a b : string) : chars a = chars b -> a = b.
Proof.
  unfold chars. intros H.
  rewrite <- (string_of_list_ascii_of_string a),
    <- (string_of_list_ascii_of_string b), H.
  reflexivity.
Qed.

Lemma klines_default (symbol interval : string) (o : option string) :
  not_given o = true ->
  klines_output_file symbol interval o
  = "data/" ++ symbol ++ "_" ++ interval ++ "_klines.csv".
Proof.
  destruct o as [[|c p]|]; simpl; intros H;
    [reflexivity|discriminate|reflexivity].
Qed.

Lemma funding_default (symbol : string) (o : option string) :
  not_given o = true ->
  funding_output_file symbol o = "data/" ++ symbol ++ "_funding_rates.csv".
Proof.
  destruct o as [[|c p]|]; simpl; intros H;
    [reflexivity|discriminate|reflexivity].
Qed.

(** X10.  When [output_file] is left out or empty, the klines walker and
    the funding walker never use the same file, whatever the symbols and
    the interval: a klines run cannot resume from, or overwrite, a default
    funding-rate file. *)
Theorem default_files_differ
    (symbol interval symbol' : string) (o o' : option string) :
  not_given o = true -> not_given o' = true ->
  klines_output_file symbol interval o <> funding_output_file symbol' o'.
Proof.
  intros Ho Ho' E.
  rewrite (klines_default _ _ _ Ho), (funding_default _ _ Ho') in E.
  apply (f_equal chars) in E. rewrite !chars_append in E.
  apply (f_equal (@rev Ascii.ascii)) in E.
  rewrite !rev_app_distr in E. simpl in E.
  discriminate E.
Qed.

Lemma default_files_differ_witness :
  klines_output_file "BTCUSDT" "5m" None
  <> funding_output_file "BTCUSDT" (Some "").
Proof.
  apply default_files_differ; reflexivity.
Defined.

(** X11.  When [output_file] is left out or empty and the intervals hold no
    underscore (none of the provider's intervals does), two klines datasets
    share a file only if they have the same symbol and the same interval: a
    run never resumes from the file of another dataset. *)
Theorem klines_default_file_injective
    (symbol interval symbol' interval' : string) (o o' : option string) :
  not_given o = true -> not_given o' = true ->
  no_underscore interval -> no_underscore interval' ->
  klines_output_file symbol interval o
  = klines_output_file symbol' interval' o' ->
  symbol = symbol' /\ interval = interval'.
Proof.
  intros Ho Ho' Hi Hi' E.
  rewrite (klines_default _ _ _ Ho), (klines_default _ _ _ Ho') in E.
  apply (f_equal chars) in E. rewrite !chars_append in E.
  apply app_inv_head in E.
  rewrite !app_assoc in E. apply app_inv_tail in E.
  rewrite <- !app_assoc in E.
  change (chars "_") with ["_"%char] in E. simpl in E.
  destruct (split_at_last_unique _ _ _ _ _ _ Hi Hi' E) as [Hs Hint].
  split; apply chars_inj; assumption.
Qed.

Lemma klines_default_file_injective_witness :
  klines_output_file "BTCUSDT" "5m" None = "data/BTCUSDT_5m_klines.csv"
  /\ ("BTCUSDT" = "BTCUSDT" /\ "5m" = "5m").
Proof.
  split; [reflexivity|].
  apply (klines_default_file_injective "BTCUSDT" "5m" "BTCUSDT" "5m"
           None (Some "")); try reflexivity.
  - unfold no_underscore. simpl. intuition discriminate.
  - unfold no_underscore. simpl. intuition discriminate.
Defined.

End PathFacts.

(** ** What a kill can lose *)

Section Behind.
Variables Raw R : Type.
Variable conv : Raw -> R.
Variable key : R -> Z.
Variable net : Net Raw.
Variable end_date : Z.

Let fetch := page_source conv net.

Lemma loop_behind (start_date : Z) (file : option (list R)) (k : nat) :
  at_most_nine_behind key file
    (state_of (walker_loop key fetch end_date k
                 (walker_resume key start_date file))).
Proof.
  pose proof (@loop_pages_since Raw R conv key net end_date start_date
                file k) as [Hle _].
  fold fetch in Hle.
  assert (Hinv :
    let w := state_of (walker_loop key fetch end_date k
                         (walker_resume key start_date file)) in
    exists saved rest,
      all_data w = saved ++ rest
      /\ length rest = pages_since_checkpoint (trace w)
      /\ ((disk w = file /\ saved = initial_frames file)
          \/ disk w = Some (combine key saved))).
  { cbv zeta.
    apply (loop_reach Raw R conv key net end_date
             (fun w => exists saved rest,
                  all_data w = saved ++ rest
                  /\ length rest = pages_since_checkpoint (trace w)
                  /\ ((disk w = file /\ saved = initial_frames file)
                      \/ disk w = Some (combine key saved)))
             (fun w => exists saved rest,
                  all_data w = saved ++ rest
                  /\ length rest = pages_since_checkpoint (trace w)
                  /\ ((disk w = file /\ saved = initial_frames file)
                      \/ disk w = Some (combine key saved)))).
    - intros w c x raw (saved & rest & Hall & Hlen & Hdisk) _ _ _.
      rewrite page_step_all_data, page_step_pages_since, page_step_disk.
      destruct (_ =? 0)%nat.
      + exists (all_data w ++ [map conv (x :: raw)]), [].
        rewrite app_nil_r. auto.
      + exists saved, (rest ++ [map conv (x :: raw)]).
        rewrite Hall, app_assoc, length_app, Hlen.
        split; [reflexivity|]. split; [simpl; lia|exact Hdisk].
    - auto.
    - intros w c failed (saved & rest & Hall & Hlen & Hdisk) _ _.
      exists saved, rest. rewrite stop_step_pages_since. auto.
    - exists (initial_frames file), [].
      destruct file; simpl; auto. }
  cbv zeta in Hinv. destruct Hinv as (saved & rest & Hall & Hlen & Hdisk).
  exists saved, rest. split; [exact Hall|]. split; [|exact Hdisk].
  rewrite Hlen.
  pose proof (Nat.mod_upper_bound
                (length (all_data
                           (state_of (walker_loop key fetch end_date k
                              (walker_resume key start_date file))))) 10).
  lia.
Qed.
End Behind.

(** X12.  What a kill can lose.  At every iteration boundary of a run of
    either walker, the buffer is a part already saved followed by at most
    nine frames, and the file holds the frame combined from that saved part
    (or, before the first write, is still the file the run started from,
    the saved part being its frame): a kill loses the rows of at most the
    last nine fetched pages. *)
Theorem kill_loses_at_most_nine_pages
    (netK : Net RawKline) (netF : Net RawFunding)
    (start_date end_date : Z)
    (fileK : option (list BarRecord)) (fileF : option (list FundingRecord))
    (k : nat) :
  at_most_nine_behind open_time fileK
    (state_of (Klines.loop netK end_date k (Klines.resume start_date fileK)))
  /\ at_most_nine_behind fundingTime fileF
       (state_of (Funding.loop netF end_date k
                    (Funding.resume start_date fileF))).
Proof.
  rewrite klines_loop_is_walker, funding_loop_is_walker. split.
  - apply (loop_behind RawKline BarRecord kline_of_raw open_time).
  - apply (loop_behind RawFunding FundingRecord funding_of_raw fundingTime).
Qed.

(** ** The same for funding rates *)




